(** * CHAMBAI: the grading pipeline of the handwritten-math grader

    A shallow embedding of
    - [src/route.ts]          the [POST] handler of [/api/grade],
    - [components/ImageUploader] (the [handleFileChange] handler),
    - [app/page] ([handleImageProcessed], [gradeImage], [getBoxStyle]),
    - [types] (the [GradingResult] interface),
    followed by the properties of the specification that concern them. *)

From Stdlib Require Import List ZArith NArith Lia Bool String Ascii QArith Qabs DecimalString.
Import ListNotations.

Local Open Scope Z_scope.

Set Warnings "-register-all".

(** ** JavaScript strings

    A JavaScript string is a sequence of UTF-16 code units.  A code unit is
    kept as an [N]; the string methods the program calls ([startsWith],
    [replace] with a global literal pattern, [trim], [split]) are defined on
    sequences of code units, as ECMA-262 does. *)

Module JsString.

Definition code_unit := N.
Definition jsstring := list code_unit.

(** A literal of the source text, as code units. *)
Definition js (s : string) : jsstring :=
  map N_of_ascii (list_ascii_of_string s).

(** A literal in which an apostrophe stands for the quotation mark (code
    unit 34), to write JSON texts legibly. *)
Definition jsq (s : string) : jsstring :=
  map (fun c => if (c =? 39)%N then 34%N else c) (js s).

Definition eqb (a b : jsstring) : bool :=
  if list_eq_dec N.eq_dec a b then true else false.

(** [s.startsWith(p)] *)
Fixpoint startsWith (p s : jsstring) : bool :=
  match p, s with
  | [], _ => true
  | _ :: _, [] => false
  | a :: p', b :: s' => (a =? b)%N && startsWith p' s'
  end.

(** [s.replace(/p/g, '')] for a literal, non-empty pattern [p]: the matches
    are found from left to right and do not overlap; after a match at some
    position the scan resumes behind it.  [skip] counts the code units of
    the current match that are still to be dropped. *)
Fixpoint removeAll_from (p : jsstring) (skip : nat) (s : jsstring) : jsstring :=
  match s with
  | [] => []
  | c :: s' =>
    match skip with
    | S k => removeAll_from p k s'
    | O => if startsWith p s
           then removeAll_from p (Nat.pred (List.length p)) s'
           else c :: removeAll_from p 0 s'
    end
  end.

Definition removeAll (p s : jsstring) : jsstring := removeAll_from p 0 s.

(** WhiteSpace and LineTerminator of ECMA-262, the code units [trim]
    strips: TAB, LF, VT, FF, CR, SP, NBSP, U+1680, U+2000..U+200A, U+2028,
    U+2029, U+202F, U+205F, U+3000 and U+FEFF. *)
Definition isWhiteSpace (c : code_unit) : bool :=
  ((9 <=? c) && (c <=? 13) || (c =? 32) || (c =? 160) || (c =? 5760)
   || (8192 <=? c) && (c <=? 8202) || (c =? 8232) || (c =? 8233)
   || (c =? 8239) || (c =? 8287) || (c =? 12288) || (c =? 65279))%N.

Fixpoint trimStart (s : jsstring) : jsstring :=
  match s with
  | [] => []
  | c :: s' => if isWhiteSpace c then trimStart s' else s
  end.

Definition trimEnd (s : jsstring) : jsstring := rev (trimStart (rev s)).

(** [s.trim()] *)
Definition trim (s : jsstring) : jsstring := trimEnd (trimStart s).

(** [s.split(sep)] for a one-code-unit separator: the pieces between the
    separators, in order; never the empty array. *)
Fixpoint split (sep : code_unit) (s : jsstring) : list jsstring :=
  match s with
  | [] => [[]]
  | c :: s' =>
    if (c =? sep)%N then [] :: split sep s'
    else match split sep s' with
         | [] => [[c]]
         | piece :: pieces => (c :: piece) :: pieces
         end
  end.

(** [s] contains [p] as a substring. *)
Fixpoint includes (p s : jsstring) : bool :=
  startsWith p s ||
  match s with
  | [] => false
  | _ :: s' => includes p s'
  end.

End JsString.
Import JsString.


(** ** JSON values and [JSON.parse]

    [JSON.parse] belongs to the platform; it is modelled after the JSON
    grammar of ECMA-404, which ECMA-262 prescribes for it.  A number keeps its
    sign, decimal mantissa and decimal exponent (the value is
    [(-1)^negative * mantissa * 10^exponent10]); an object keeps its members in
    the order of the text, duplicates included. *)

Module Json.

Record number : Type := mkNumber
  { negative : bool; mantissa : N; exponent10 : Z }.

Inductive value : Type :=
| JNull
| JBool (b : bool)
| JNumber (n : number)
| JString (s : jsstring)
| JArray (elements : list value)
| JObject (members : list (jsstring * value)).

(** The outcome of a parsing function: the parsed item and the unread rest of
    the text, a syntax error, or recursion budget exhausted. *)
Inductive parsed (A : Type) : Type :=
| Parsed (a : A) (rest : jsstring)
| Invalid
| OutOfFuel.
Arguments Parsed {A} a rest.
Arguments Invalid {A}.
Arguments OutOfFuel {A}.

Definition is_json_ws (c : code_unit) : bool :=
  ((c =? 32) || (c =? 9) || (c =? 10) || (c =? 13))%N.

Fixpoint skip_ws (s : jsstring) : jsstring :=
  match s with
  | [] => []
  | c :: s' => if is_json_ws c then skip_ws s' else s
  end.

Definition is_digit (c : code_unit) : bool := ((48 <=? c) && (c <=? 57))%N.

Definition hex_value (c : code_unit) : option N :=
  if is_digit c then Some (c - 48)%N
  else if ((65 <=? c) && (c <=? 70))%N then Some (c - 55)%N
  else if ((97 <=? c) && (c <=? 102))%N then Some (c - 87)%N
  else None.

Definition hex4 (a b c d : code_unit) : option code_unit :=
  match hex_value a, hex_value b, hex_value c, hex_value d with
  | Some x, Some y, Some z, Some w => Some (((x * 16 + y) * 16 + z) * 16 + w)%N
  | _, _, _, _ => None
  end.

(** The code unit a one-letter escape stands for. *)
Definition escape (e : code_unit) : option code_unit :=
  if (e =? 34)%N then Some 34%N            (* quotation mark *)
  else if (e =? 92)%N then Some 92%N       (* reverse solidus *)
  else if (e =? 47)%N then Some 47%N       (* solidus *)
  else if (e =? 98)%N then Some 8%N        (* b: backspace *)
  else if (e =? 102)%N then Some 12%N      (* f: form feed *)
  else if (e =? 110)%N then Some 10%N      (* n: line feed *)
  else if (e =? 114)%N then Some 13%N      (* r: carriage return *)
  else if (e =? 116)%N then Some 9%N       (* t: tab *)
  else None.

Definition push (c : code_unit) (r : option (jsstring * jsstring))
  : option (jsstring * jsstring) :=
  match r with
  | Some (str, rest) => Some (c :: str, rest)
  | None => None
  end.

(** The characters of a string literal, read behind its opening quote up to
    and including the closing quote. *)
Fixpoint parse_chars (s : jsstring) : option (jsstring * jsstring) :=
  match s with
  | [] => None
  | c :: s1 =>
    if (c =? 34)%N then Some ([], s1)
    else if (c =? 92)%N then
      match s1 with
      | [] => None
      | e :: s2 =>
        if (e =? 117)%N then
          match s2 with
          | h1 :: h2 :: h3 :: h4 :: s3 =>
            match hex4 h1 h2 h3 h4 with
            | Some u => push u (parse_chars s3)
            | None => None
            end
          | _ => None
          end
        else
          match escape e with
          | Some u => push u (parse_chars s2)
          | None => None
          end
      end
    else if (c <? 32)%N then None
    else push c (parse_chars s1)
  end.

Fixpoint span_digits (s : jsstring) : jsstring * jsstring :=
  match s with
  | [] => ([], [])
  | c :: s' =>
    if is_digit c then let (ds, rest) := span_digits s' in (c :: ds, rest)
    else ([], s)
  end.

Definition digits_value (ds : jsstring) : N :=
  fold_left (fun acc d => (10 * acc + (d - 48))%N) ds 0%N.

(** A number: an optional minus sign; the integer part, a single 0 or a
    digit 1-9 followed by digits; an optional fraction, a point and at least
    one digit; an optional exponent, e or E, an optional sign and at least one
    digit. *)
Definition parse_number (s : jsstring) : option (number * jsstring) :=
  let (neg, s1) :=
    match s with
    | c :: r => if (c =? 45)%N then (true, r) else (false, s)
    | [] => (false, s)
    end in
  let int_part :=
    match s1 with
    | c :: r =>
      if (c =? 48)%N then Some ([c], r)
      else if is_digit c then Some (span_digits s1)
      else None
    | [] => None
    end in
  match int_part with
  | None => None
  | Some (int, s2) =>
    let frac_part :=
      match s2 with
      | c :: r =>
        if (c =? 46)%N then
          match span_digits r with
          | ([], _) => None
          | (fr, s3) => Some (fr, s3)
          end
        else Some ([], s2)
      | [] => Some ([], s2)
      end in
    match frac_part with
    | None => None
    | Some (fr, s3) =>
      let exp_part :=
        match s3 with
        | c :: r =>
          if ((c =? 101) || (c =? 69))%N then
            let (eneg, r') :=
              match r with
              | sg :: r1 =>
                if (sg =? 45)%N then (true, r1)
                else if (sg =? 43)%N then (false, r1)
                else (false, r)
              | [] => (false, r)
              end in
            match span_digits r' with
            | ([], _) => None
            | (ds, s4) =>
              Some ((if eneg then - Z.of_N (digits_value ds)
                     else Z.of_N (digits_value ds)), s4)
            end
          else Some (0, s3)
        | [] => Some (0, s3)
        end in
      match exp_part with
      | None => None
      | Some (e, s4) =>
        Some (mkNumber neg (digits_value (int ++ fr))
                       (e - Z.of_nat (List.length fr)), s4)
      end
    end
  end.

(** A literal name ([null], [true], [false]). *)
Definition parse_literal (name : jsstring) (v : value) (s : jsstring) : parsed value :=
  if startsWith name s then Parsed v (skipn (List.length name) s) else Invalid.

Fixpoint parse_value (fuel : nat) (s : jsstring) : parsed value :=
  match fuel with
  | O => OutOfFuel
  | S fuel' =>
    match s with
    | [] => Invalid
    | c :: s' =>
      if (c =? 123)%N then                                   (* { *)
        match skip_ws s' with
        | [] => Invalid
        | c2 :: s2 =>
          if (c2 =? 125)%N then Parsed (JObject []) s2       (* } *)
          else match parse_members fuel' (c2 :: s2) with
               | Parsed ms rest => Parsed (JObject ms) rest
               | Invalid => Invalid
               | OutOfFuel => OutOfFuel
               end
        end
      else if (c =? 91)%N then                               (* [ *)
        match skip_ws s' with
        | [] => Invalid
        | c2 :: s2 =>
          if (c2 =? 93)%N then Parsed (JArray []) s2         (* ] *)
          else match parse_elements fuel' (c2 :: s2) with
               | Parsed vs rest => Parsed (JArray vs) rest
               | Invalid => Invalid
               | OutOfFuel => OutOfFuel
               end
        end
      else if (c =? 34)%N then                               (* string *)
        match parse_chars s' with
        | Some (str, rest) => Parsed (JString str) rest
        | None => Invalid
        end
      else if (c =? 110)%N then parse_literal (js "null") JNull s
      else if (c =? 116)%N then parse_literal (js "true") (JBool true) s
      else if (c =? 102)%N then parse_literal (js "false") (JBool false) s
      else
        match parse_number s with
        | Some (n, rest) => Parsed (JNumber n) rest
        | None => Invalid
        end
    end
  end

(** The elements of an array up to and including the closing bracket, read
    from the first code unit of the first element. *)
with parse_elements (fuel : nat) (s : jsstring) : parsed (list value) :=
  match fuel with
  | O => OutOfFuel
  | S fuel' =>
    match parse_value fuel' s with
    | Parsed v rest =>
      match skip_ws rest with
      | [] => Invalid
      | c :: r =>
        if (c =? 44)%N then                                  (* , *)
          match parse_elements fuel' (skip_ws r) with
          | Parsed vs rest' => Parsed (v :: vs) rest'
          | Invalid => Invalid
          | OutOfFuel => OutOfFuel
          end
        else if (c =? 93)%N then Parsed [v] r                (* ] *)
        else Invalid
      end
    | Invalid => Invalid
    | OutOfFuel => OutOfFuel
    end
  end

(** The members of an object up to and including the closing brace, read from
    the opening quote of the first key. *)
with parse_members (fuel : nat) (s : jsstring) : parsed (list (jsstring * value)) :=
  match fuel with
  | O => OutOfFuel
  | S fuel' =>
    match s with
    | [] => Invalid
    | c :: s1 =>
      if (c =? 34)%N then
        match parse_chars s1 with
        | None => Invalid
        | Some (key, s2) =>
          match skip_ws s2 with
          | [] => Invalid
          | c2 :: s3 =>
            if (c2 =? 58)%N then                             (* : *)
              match parse_value fuel' (skip_ws s3) with
              | Parsed v rest =>
                match skip_ws rest with
                | [] => Invalid
                | c3 :: r =>
                  if (c3 =? 44)%N then
                    match parse_members fuel' (skip_ws r) with
                    | Parsed ms rest' => Parsed ((key, v) :: ms) rest'
                    | Invalid => Invalid
                    | OutOfFuel => OutOfFuel
                    end
                  else if (c3 =? 125)%N then Parsed [(key, v)] r
                  else Invalid
                end
              | Invalid => Invalid
              | OutOfFuel => OutOfFuel
              end
            else Invalid
          end
        end
      else Invalid
    end
  end.

(** The recursion budget [JSON_parse] starts with; every recursive call reads
    at least one code unit, so it is never used up ([parse_never_out_of_fuel]
    below). *)
Definition budget (s : jsstring) : nat := 2 * List.length s + 1.

(** [JSON.parse(text)]: [None] stands for the [SyntaxError] it throws. *)
Definition JSON_parse (text : jsstring) : option value :=
  match parse_value (budget text) (skip_ws text) with
  | Parsed v rest =>
    match skip_ws rest with
    | [] => Some v
    | _ :: _ => None
    end
  | Invalid => None
  | OutOfFuel => None
  end.

End Json.
Import Json.


(** Property lookup on a parsed object: of several members with one key the
    last one counts. *)
Fixpoint get (key : jsstring) (members : list (jsstring * value)) : option value :=
  match members with
  | [] => None
  | (k, v) :: members' =>
    match get key members' with
    | Some v' => Some v'
    | None => if JsString.eqb k key then Some v else None
    end
  end.

(** A Number is a double: a decimal whose magnitude is at most [2^-1075],
    half the least positive double, reads as zero. *)
Definition is_zero (n : number) : bool :=
  (mantissa n =? 0)%N
  || (exponent10 n <? 0)
     && (Z.of_N (mantissa n) * 2 ^ 1075 <=? 10 ^ (- exponent10 n)).

(** [ToBoolean]; [None] is [undefined]. *)
Definition truthy (v : option value) : bool :=
  match v with
  | None => false
  | Some JNull => false
  | Some (JBool b) => b
  | Some (JNumber n) => negb (is_zero n)
  | Some (JString s) => match s with [] => false | _ :: _ => true end
  | Some (JArray _) => true
  | Some (JObject _) => true
  end.

(** ** [types]: the [GradingResult] interface *)

Module Types.

Record GradingResult : Type := mkGradingResult
  { lineNumber : number;
    latex : jsstring;
    isCorrect : bool;
    explanation : jsstring;
    boundingBox : number * number * number * number }.

(** The names of the fields of the interface, in the order it declares them. *)
Definition GradingResult_fields : list jsstring :=
  [js "lineNumber"; js "latex"; js "isCorrect"; js "explanation"; js "boundingBox"].

(** A parsed value seen as a [GradingResult]: an object that has the five
    fields, each of its declared type. *)
Definition as_GradingResult (v : value) : option GradingResult :=
  match v with
  | JObject ms =>
    match get (js "lineNumber") ms, get (js "latex") ms, get (js "isCorrect") ms,
          get (js "explanation") ms, get (js "boundingBox") ms with
    | Some (JNumber n), Some (JString l), Some (JBool c), Some (JString e),
      Some (JArray [JNumber ymin; JNumber xmin; JNumber ymax; JNumber xmax]) =>
      Some (mkGradingResult n l c e (ymin, xmin, ymax, xmax))
    | _, _, _, _, _ => None
    end
  | _ => None
  end.

Fixpoint all_GradingResults (vs : list value) : option (list GradingResult) :=
  match vs with
  | [] => Some []
  | v :: vs' =>
    match as_GradingResult v, all_GradingResults vs' with
    | Some r, Some rs => Some (r :: rs)
    | _, _ => None
    end
  end.

(** A parsed value seen as a [GradingResult[]], element by element, in the
    order of the array. *)
Definition as_GradingResponse (v : value) : option (list GradingResult) :=
  match v with
  | JArray vs => all_GradingResults vs
  | _ => None
  end.

End Types.
Import Types.

(** ** [route.ts]: the [POST] handler *)

Module Route.

(** *** The request to the inference boundary ([@google/genai]) *)

Inductive SchemaType : Type := ARRAY | OBJECT | INTEGER | STRING | BOOLEAN.

Inductive Schema : Type := mkSchema
  { type : SchemaType;
    description : option jsstring;
    items : option Schema;
    properties : list (jsstring * Schema);
    required : list jsstring }.

Record InlineData : Type := mkInlineData
  { mimeType : jsstring;
    data : option jsstring   (* [None] is [undefined] *) }.

Inductive Part : Type :=
| InlineDataPart (inlineData : InlineData)
| TextPart (text : jsstring).

Record GenerateContentConfig : Type := mkConfig
  { systemInstruction : jsstring;
    responseMimeType : jsstring;
    responseSchema : Schema;
    temperature : Q }.

Record GenerateContentParameters : Type := mkParameters
  { model : jsstring;
    contents : list Part;
    config : GenerateContentConfig }.

(** *** Errors, effects and the platform *)

(** A thrown error, as far as the handler looks at it: [error.message],
    [None] when there is none. *)
Record JsError : Type := mkError { message : option jsstring }.

(** What the handler does to the outside: a line on the error console, a
    call of the inference boundary. *)
Inductive Logged : Type :=
| LoggedText (outputText : option jsstring)
| LoggedError (error : JsError).

Inductive Event : Type :=
| ConsoleError (label : jsstring) (payload : Logged)
| GenerateContent (request : GenerateContentParameters).

(** What surrounds the handler: the inference boundary, which answers a
    request with the text of the response ([response.text], [None] when
    undefined) or throws, and the messages of the engine's [TypeError]s. *)
Record Platform : Type := mkPlatform
  { generateContent : GenerateContentParameters -> JsError + option jsstring;
    cannot_destructure : jsstring;
    not_a_function : jsstring }.

(** A computation that logs, calls the boundary and may throw. *)
Definition Eff (A : Type) : Type := list Event * (JsError + A).

Definition ret {A : Type} (a : A) : Eff A := ([], inr a).

Definition throw {A : Type} (e : JsError) : Eff A := ([], inl e).

Definition emit (ev : Event) : Eff unit := ([ev], inr tt).

Definition bind {A B : Type} (m : Eff A) (k : A -> Eff B) : Eff B :=
  match m with
  | (t, inl e) => (t, inl e)
  | (t, inr a) => let (t', r) := k a in (t ++ t', r)
  end.

(** [try { body } catch (e) { handler e }] *)
Definition try_catch {A : Type} (body : Eff A) (handler : JsError -> Eff A) : Eff A :=
  match body with
  | (t, inl e) => let (t', r) := handler e in (t ++ t', r)
  | (t, inr a) => (t, inr a)
  end.

Notation "x <- m ;; k" := (bind m (fun x => k))
  (at level 61, m at next level, right associativity).
Notation "m ;;; k" := (bind m (fun _ => k))
  (at level 61, right associativity).

(** *** The response *)

Record HttpResponse : Type := mkResponse { status : Z; body : value }.

(** [NextResponse.json(body, { status })]; the status defaults to 200. *)
Definition NextResponse_json (body : value) (status : option Z) : HttpResponse :=
  mkResponse (match status with Some st => st | None => 200 end) body.

(** [a || b] on strings that may be undefined. *)
Definition or_else (a : option jsstring) (b : jsstring) : jsstring :=
  match a with
  | Some (c :: m) => c :: m
  | Some [] => b
  | None => b
  end.

Definition prop (schema_type : SchemaType) (text : string) : Schema :=
  mkSchema schema_type (Some (js text)) None [] [].

Definition gradingSchema : Schema :=
  mkSchema ARRAY None
    (Some (mkSchema OBJECT None None
       [ (js "lineNumber", prop INTEGER "The sequential line number starting from 1");
         (js "latex", prop STRING "The math expression in LaTeX format");
         (js "isCorrect", prop BOOLEAN "True if the step is mathematically valid");
         (js "explanation", prop STRING "Feedback on the step");
         (js "boundingBox",
          mkSchema ARRAY
            (Some (js "Coordinates [ymin, xmin, ymax, xmax] on a 1000x1000 scale"))
            (Some (mkSchema INTEGER None None [] [])) [] []) ]
       [js "lineNumber"; js "latex"; js "isCorrect"; js "explanation"; js "boundingBox"]))
    [] [].

Definition systemInstruction_text : jsstring :=
  jsq "
      You are an expert Math Teacher AI. Your task is to grade a handwritten math worksheet.
      
      1.  **Analyze**: Scan the image from top to bottom. Identify every distinct math expression or step.
      2.  **Evaluate**: For each line/step, determine if the math is logically correct based on the previous lines or standard math rules.
      3.  **Localize**: Return the 2D bounding box for each distinct line in the [ymin, xmin, ymax, xmax] format (0-1000 scale).
      4.  **Explain**: If a line is incorrect, provide a brief, friendly explanation of the error. If correct, keep explanation empty or 'Correct'.
      5.  **Transcription**: Transcribe the math into LaTeX format.

      **CRITICAL OUTPUT RULES:**
      - Return ONLY a valid JSON Array.
      - Do not include Markdown formatting (no ```json).
      - Do not include any intro/outro text.
    ".

(** The argument of [ai.models.generateContent]. *)
Definition request_for (base64Data : option jsstring) : GenerateContentParameters :=
  mkParameters (js "gemini-2.0-flash-exp")
    [ InlineDataPart (mkInlineData (js "image/jpeg") base64Data);
      TextPart (js "Grade this math problem. Identify lines, check correctness, and provide bounding boxes.") ]
    (mkConfig systemInstruction_text (js "application/json") gradingSchema 0.1%Q).

(** [const { image } = body]: reading a property of [null] throws; any other
    value that is not an object has no such property. *)
Definition destructure_image (p : Platform) (body : value) : Eff (option value) :=
  match body with
  | JNull => throw (mkError (Some (cannot_destructure p)))
  | JObject ms => ret (get (js "image") ms)
  | _ => ret None
  end.

(** [image.split(',')[1]]: only a string has the method. *)
Definition split_image (p : Platform) (image : option value) : Eff (option jsstring) :=
  match image with
  | Some (JString s) => ret (nth_error (split 44%N s) 1)
  | _ => throw (mkError (Some (not_a_function p)))
  end.

(** [ai.models.generateContent(request)], awaited, then [response.text]. *)
Definition call_model (p : Platform) (request : GenerateContentParameters)
  : Eff (option jsstring) :=
  emit (GenerateContent request) ;;;
  match generateContent p request with
  | inl e => throw e
  | inr text => ret text
  end.

(** [outputText.replace(/```json/g, '').replace(/```/g, '').trim()] *)
Definition cleanJson (outputText : jsstring) : jsstring :=
  trim (removeAll (js "```") (removeAll (js "```json") outputText)).

(** The same on [response.text], which may be undefined: calling a method of
    [undefined] throws. *)
Definition cleanJson_of (outputText : option jsstring) : Eff jsstring :=
  match outputText with
  | None => throw (mkError None)
  | Some t => ret (cleanJson t)
  end.

(** [JSON.parse(text)] as a computation. *)
Definition JSON_parse_eff (text : jsstring) : Eff value :=
  match JSON_parse text with
  | Some v => ret v
  | None => throw (mkError None)
  end.

(** The inner [try]: the parsed results, or the response its [catch] returns. *)
Definition parse_results (outputText : option jsstring) : Eff (HttpResponse + value) :=
  try_catch
    (clean <- cleanJson_of outputText ;;
     results <- JSON_parse_eff clean ;;
     ret (inr results))
    (fun parseError =>
       emit (ConsoleError (js "JSON Parse Error:") (LoggedText outputText)) ;;;
       ret (inl (NextResponse_json
                   (JObject [(js "error", JString (js "Failed to parse AI response. Please try again."))])
                   (Some 500)))).

(** [POST(req)]; [req_json] is the outcome of [await req.json()]. *)
Definition POST (p : Platform) (req_json : JsError + value) : Eff HttpResponse :=
  try_catch
    (body <- (match req_json with inl e => throw e | inr v => ret v end) ;;
     image <- destructure_image p body ;;
     if negb (truthy image) then
       ret (NextResponse_json
              (JObject [(js "error", JString (js "No image data provided"))])
              (Some 400))
     else
       base64Data <- split_image p image ;;
       outputText <- call_model p (request_for base64Data) ;;
       parsed <- parse_results outputText ;;
       match parsed with
       | inl response => ret response
       | inr results => ret (NextResponse_json (JObject [(js "results", results)]) None)
       end)
    (fun error =>
       emit (ConsoleError (js "API Error:") (LoggedError error)) ;;;
       ret (NextResponse_json
              (JObject [(js "error", JString (or_else (message error) (js "Internal Server Error")))])
              (Some 500))).

(** The calls of the inference boundary in a trace. *)
Fixpoint inference_calls (t : list Event) : list GenerateContentParameters :=
  match t with
  | [] => []
  | GenerateContent request :: t' => request :: inference_calls t'
  | ConsoleError _ _ :: t' => inference_calls t'
  end.

End Route.

(** ** [components/ImageUploader]: the [handleFileChange] handler *)

Module Uploader.

Record File : Type := mkFile
  { type : jsstring;            (* the declared media type, [file.type] *)
    bytes : list N }.

Record Canvas : Type := mkCanvas { width : Z; height : Z }.

(** What the browser contributes: the data URL [FileReader] hands to
    [reader.onload] ([None]: the read fails and the callback never runs), the
    size of the decoded image when [img.onload] runs ([None]: it never
    does), whether [canvas.getContext('2d')] yields a context, and the encoder
    behind [canvas.toDataURL(type, quality)], which sees the image drawn and
    the size of the canvas. *)
Record Browser : Type := mkBrowser
  { readAsDataURL : File -> option jsstring;
    decode : jsstring -> option (Z * Z);
    getContext_2d : Canvas -> bool;
    toDataURL : jsstring -> Canvas -> jsstring -> Q -> jsstring }.

(** What the pipeline does on the client side, in the order it happens; an
    event of the server is recorded where the request is served. *)
Inductive UiEvent : Type :=
| Alert (text : jsstring)
| SetIsProcessing (b : bool)
| DrawImage (src : jsstring) (dx dy dw dh : Z)
| ToDataURL (canvas : Canvas) (type : jsstring) (quality : Q)
| SetImageSrc (src : option jsstring)
| SetResults (results : option value)
| SetError (text : option jsstring)
| SetIsLoading (b : bool)
| Fetch (url method : jsstring) (body : value)
| ServerSide (e : Route.Event).

Definition MAX_WIDTH : Z := 1024.
Definition QUALITY : Q := 0.8.

(** [Math.round(a / b)] for integers [a] and [b > 0]: the integer nearest to
    the quotient, a tie going up.  For the sizes of an image ([b < 2^32],
    [a < 2^42], the quotient below [2^10]) the double [a / b] lies on the same
    side of every half-integer as the exact quotient, so the integer
    arithmetic computes what the double arithmetic does. *)
Definition Math_round_div (a b : Z) : Z := (2 * a + b) / (2 * b).

(** The resize logic of [img.onload]. *)
Definition resize (img_width img_height : Z) : Z * Z :=
  if img_height <? img_width then
    if MAX_WIDTH <? img_width
    then (MAX_WIDTH, Math_round_div (img_height * MAX_WIDTH) img_width)
    else (img_width, img_height)
  else
    if MAX_WIDTH <? img_height
    then (Math_round_div (img_width * MAX_WIDTH) img_height, MAX_WIDTH)
    else (img_width, img_height).

(** [handleFileChange(e)]: [files] is [e.target.files], [onImageProcessed]
    the callback of the parent. *)
Definition handleFileChange (b : Browser)
    (onImageProcessed : jsstring -> jsstring -> list UiEvent)
    (files : list File) : list UiEvent :=
  match files with
  | [] => []
  | file :: _ =>
    if negb (startsWith (js "image/") (type file)) then
      [Alert (js "Please select a valid image file")]
    else
      SetIsProcessing true ::
      match readAsDataURL b file with
      | None => []
      | Some src =>
        match decode b src with
        | None => []
        | Some (img_width, img_height) =>
          let (w, h) := resize img_width img_height in
          let canvas := mkCanvas w h in
          (if getContext_2d b canvas then
             let compressedBase64 := toDataURL b src canvas (js "image/jpeg") QUALITY in
             [DrawImage src 0 0 w h; ToDataURL canvas (js "image/jpeg") QUALITY]
             ++ onImageProcessed compressedBase64 compressedBase64
           else [])
          ++ [SetIsProcessing false]
        end
      end
  end.

End Uploader.

(** ** [app/page]: the [Home] component *)

Module Page.
Import Uploader.

(** The engine's part in [gradeImage]: the message of the [TypeError] of a
    property read on [null], and [ToString] of a value that is not a
    string. *)
Record Engine : Type := mkEngine
  { cannot_read : jsstring;
    toString : value -> jsstring }.

(** [response.ok] *)
Definition ok (r : Route.HttpResponse) : bool :=
  (200 <=? Route.status r) && (Route.status r <=? 299).

(** [data.name]: [inl] when the read throws. *)
Definition read (en : Engine) (data : value) (name : string)
  : Route.JsError + option value :=
  match data with
  | JNull => inl (Route.mkError (Some (cannot_read en)))
  | JObject ms => inr (get (js name) ms)
  | _ => inr None
  end.

(** [new Error(v || fallback).message] *)
Definition message_or (en : Engine) (v : option value) (fallback : jsstring) : jsstring :=
  if truthy v then
    match v with
    | Some (JString s) => s
    | Some other => toString en other
    | None => fallback
    end
  else fallback.

(** [gradeImage(base64Image)]; [fetch] serves the request and yields what the
    server did and the response, or the error [fetch] throws. *)
Definition gradeImage (en : Engine)
    (fetch : value -> list Route.Event * (Route.JsError + Route.HttpResponse))
    (base64Image : jsstring) : list UiEvent :=
  let body := JObject [(js "image", JString base64Image)] in
  let (served, outcome) := fetch body in
  let caught (err : Route.JsError) :=
    [SetError (Some (Route.or_else (Route.message err) (js "Something went wrong")))] in
  [SetIsLoading true; Fetch (js "/api/grade") (js "POST") body]
  ++ map ServerSide served
  ++ match outcome with
     | inl err => caught err
     | inr response =>
       let data := Route.body response in
       if negb (ok response) then
         match read en data "error" with
         | inl err => caught err
         | inr e => caught (Route.mkError (Some (message_or en e (js "Failed to grade image"))))
         end
       else
         match read en data "results" with
         | inl err => caught err
         | inr results => [SetResults results]
         end
     end
  ++ [SetIsLoading false].

(** [handleImageProcessed(base64Data, displayUrl)] *)
Definition handleImageProcessed (en : Engine)
    (fetch : value -> list Route.Event * (Route.JsError + Route.HttpResponse))
    (base64Data displayUrl : jsstring) : list UiEvent :=
  [SetImageSrc (Some displayUrl); SetResults None; SetError None]
  ++ gradeImage en fetch base64Data.

(** The template [n / 10] of [getBoxStyle] for an integer [n]: the Number
    [n / 10] printed by [ToString].  For [|n| < 10^15] the double nearest to
    [n / 10] prints as that decimal: the integer part, and one digit behind
    the point unless it is 0. *)
Definition tenths (n : Z) : jsstring :=
  let a := Z.abs n in
  (if n <? 0 then js "-" else [])
  ++ js (NilZero.string_of_uint (N.to_uint (Z.to_N (a / 10))))
  ++ (if a mod 10 =? 0 then []
      else js "." ++ js (NilZero.string_of_uint (N.to_uint (Z.to_N (a mod 10))))).

Record BoxStyle : Type := mkBoxStyle
  { top : jsstring; left : jsstring; height : jsstring; width : jsstring }.

(** [getBoxStyle(box)] for a box of integers. *)
Definition getBoxStyle (box : Z * Z * Z * Z) : BoxStyle :=
  let '(ymin, xmin, ymax, xmax) := box in
  {| top := tenths ymin ++ js "%";
     left := tenths xmin ++ js "%";
     height := tenths (ymax - ymin) ++ js "%";
     width := tenths (xmax - xmin) ++ js "%" |}.

(** The value of a CSS percentage: an optional sign, digits, an optional
    point with digits, and the percent sign. *)
Definition percentage (s : jsstring) : option Q :=
  let (neg, s1) :=
    match s with
    | c :: r => if (c =? 45)%N then (true, r) else (false, s)
    | [] => (false, s)
    end in
  match span_digits s1 with
  | ([], _) => None
  | (int, s2) =>
    let frac :=
      match s2 with
      | c :: r =>
        if (c =? 46)%N then
          match span_digits r with
          | ([], _) => None
          | (fr, s3) => Some (fr, s3)
          end
        else Some ([], s2)
      | [] => None
      end in
    match frac with
    | Some (fr, [37%N]) =>
      let q := Qmake (Z.of_N (digits_value (int ++ fr)))
                     (Pos.of_nat (10 ^ List.length fr)) in
      Some (if neg then Qopp q else q)
    | _ => None
    end
  end.

(** ** The pipeline of one submission: upload, request, grading *)

(** [fetch('/api/grade', ...)] served by the handler of [route.ts]. *)
Definition served_by (p : Route.Platform) (body : value)
  : list Route.Event * (Route.JsError + Route.HttpResponse) :=
  Route.POST p (inr body).

Definition submit (b : Browser) (en : Engine) (p : Route.Platform)
    (files : list File) : list UiEvent :=
  handleFileChange b (handleImageProcessed en (served_by p)) files.

(** The requests a submission sends to the inference boundary. *)
Fixpoint boundary_calls (t : list UiEvent) : list Route.GenerateContentParameters :=
  match t with
  | [] => []
  | ServerSide (Route.GenerateContent request) :: t' => request :: boundary_calls t'
  | _ :: t' => boundary_calls t'
  end.

End Page.

(** ** Notions the statements use *)

Definition backtick : code_unit := 96%N.
Definition fence : jsstring := js "```".
Definition fence_json : jsstring := js "```json".

(** A string of whitespace only. *)
Definition blank (w : jsstring) : Prop := Forall (fun c => isWhiteSpace c = true) w.

(** The number of backticks a string begins with. *)
Fixpoint lead (s : jsstring) : nat :=
  match s with
  | c :: s' => if (c =? backtick)%N then S (lead s') else 0%nat
  | [] => 0%nat
  end.

(** The text of the minimal grading response. *)
Definition minimal_array : jsstring :=
  jsq "[{'lineNumber':1, 'latex':'2+2=4', 'isCorrect':true, 'explanation':'', 'boundingBox':[0,0,100,500]}]".

(** A grading response whose transcription holds a fence. *)
Definition fence_in_latex : jsstring :=
  jsq "[{'lineNumber':1, 'latex':'```', 'isCorrect':true, 'explanation':'', 'boundingBox':[0,0,100,500]}]".

(** A grading response with backticks in both strings. *)
Definition fences_in_strings : jsstring :=
  jsq "[{'lineNumber':2, 'latex':'x```y', 'isCorrect':false, 'explanation':'see ```json', 'boundingBox':[10,20,30,40]}]".

(** A platform whose inference boundary gives one fixed answer. *)
Definition answering (answer : Route.JsError + option jsstring) : Route.Platform :=
  Route.mkPlatform (fun _ => answer)
    (js "Cannot destructure property image")
    (js "image.split is not a function").

(** A request body with a data URL for the image. *)
Definition jpeg_body : value :=
  JObject [(js "image", JString (js "data:image/jpeg;base64,AAAA"))].

(** The failure response [{ error: text }] with status [st]. *)
Definition error_response (st : Z) (text : jsstring) : Route.HttpResponse :=
  Route.mkResponse st (JObject [(js "error", JString text)]).

(** The response of the inner [catch]. *)
Definition parse_error_response : Route.HttpResponse :=
  error_response 500 (js "Failed to parse AI response. Please try again.").

(** The success response [{ results }]. *)
Definition results_response (results : value) : Route.HttpResponse :=
  Route.mkResponse 200 (JObject [(js "results", results)]).

(** The inline data of the first part of a request. *)
Definition data_of_first_part (request : Route.GenerateContentParameters) : option jsstring :=
  match Route.contents request with
  | Route.InlineDataPart d :: _ => Route.data d
  | _ => None
  end.

(** No comma among the code units. *)
Definition comma_free (s : jsstring) : bool := forallb (fun c => negb (c =? 44)%N) s.

(** The integers from [lo] on, [n] of them. *)
Definition Zrange (lo : Z) (n : nat) : list Z := map (fun k => lo + Z.of_nat k) (seq 0 n).

(** The text [tenths n] followed by the percent sign reads as [n / 10]. *)
Definition tenths_reads_back (n : Z) : bool :=
  match Page.percentage (Page.tenths n ++ js "%") with
  | Some q => Qeq_bool q (n # 10)
  | None => false
  end.

(** A browser that decodes every file to a 3000 by 2000 image. *)
Definition sample_browser : Uploader.Browser :=
  Uploader.mkBrowser
    (fun file => Some (js "data:" ++ Uploader.type file ++ js ";base64,iVBORw0KGgo="))
    (fun _ => Some (3000, 2000))
    (fun _ => true)
    (fun _ _ _ _ => js "data:image/jpeg;base64,AAAA").

Definition sample_engine : Page.Engine :=
  Page.mkEngine (js "Cannot read properties of null") (fun _ => js "[object Object]").

Definition png_file : Uploader.File := Uploader.mkFile (js "image/png") [137%N; 80%N; 78%N; 71%N].

Definition pdf_file : Uploader.File := Uploader.mkFile (js "application/pdf") [37%N; 80%N; 68%N; 70%N].

(** ** The state of the page and of the uploader *)

Module Home.
Import Uploader.

(** The four state variables of [Home]. *)
Record State : Type := mkState
  { imageSrc : option jsstring;
    results : option value;
    isLoading : bool;
    error : option jsstring }.

(** The values [useState] starts them with. *)
Definition initial : State := mkState None None false None.

(** The value [setResults] stores.  [None] is the [null] the state starts
    with; a [null] that arrives as parsed JSON is that same value, and so is
    [undefined], which the page does not tell apart from it (it only tests
    [results] for truth and maps over it). *)
Definition stored (r : option value) : option value :=
  match r with
  | Some JNull => None
  | _ => r
  end.

(** The effect of one event on the state: the setters of [Home] assign, the
    other events leave it alone. *)
Definition update (st : State) (ev : UiEvent) : State :=
  match ev with
  | SetImageSrc src => mkState src (results st) (isLoading st) (error st)
  | SetResults r => mkState (imageSrc st) (stored r) (isLoading st) (error st)
  | SetIsLoading l => mkState (imageSrc st) (results st) l (error st)
  | SetError e => mkState (imageSrc st) (results st) (isLoading st) e
  | _ => st
  end.

Definition run (st : State) (t : list UiEvent) : State := fold_left update t st.

(** [handleReset()] *)
Definition handleReset : list UiEvent :=
  [SetImageSrc None; SetResults None; SetError None].

(** The state variable [isProcessing] of the uploader after a trace that
    began with the value [before]. *)
Definition isProcessing_after (before : bool) (t : list UiEvent) : bool :=
  fold_left (fun v ev => match ev with SetIsProcessing v' => v' | _ => v end) t before.

(** [disabled={isLoading || isProcessing}] of the upload button. *)
Definition button_disabled (isLoading isProcessing : bool) : bool :=
  isLoading || isProcessing.

End Home.

(** ** More notions the statements use *)

(** No backtick among the code units. *)
Definition no_backtick (x : jsstring) : bool :=
  forallb (fun c => negb (c =? backtick)%N) x.

(** The marker of a fence, with the language tag or without. *)
Definition marker (tagged : bool) : jsstring := if tagged then fence_json else fence.

(** A text in segments: each segment is a marker and the piece that follows
    it. *)
Definition with_fences (segs : list (bool * jsstring)) : jsstring :=
  List.concat (map (fun seg => marker (fst seg) ++ snd seg) segs).

(** The pieces alone. *)
Definition without_fences (segs : list (bool * jsstring)) : jsstring :=
  List.concat (map snd segs).

(** A piece holds no backtick, and behind a marker without tag it does not
    begin with the tag (it would make the marker a tagged one). *)
Definition piece_ok (seg : bool * jsstring) : bool :=
  no_backtick (snd seg) && (fst seg || negb (startsWith (js "json") (snd seg))).

(** What the outer [catch] of the handler makes of a thrown error. *)
Definition caught_by_handler (e : Route.JsError) : Route.Eff Route.HttpResponse :=
  ([Route.ConsoleError (js "API Error:") (Route.LoggedError e)],
   inr (error_response 500 (Route.or_else (Route.message e) (js "Internal Server Error")))).

(** The non-empty string a request carries as its [image], when it does. *)
Definition image_string (req : Route.JsError + value) : option jsstring :=
  match req with
  | inr (JObject ms) =>
    match get (js "image") ms with
    | Some (JString (c :: s)) => Some (c :: s)
    | _ => None
    end
  | _ => None
  end.

(** The lines a trace writes to the error console. *)
Definition console_lines (t : list Route.Event) : nat :=
  List.length (filter (fun ev => match ev with Route.ConsoleError _ _ => true | _ => false end) t).

(** The event with which [gradeImage] reports: results or an error text. *)
Definition reports (ev : Uploader.UiEvent) : Prop :=
  (exists r, ev = Uploader.SetResults r)
  \/ (exists c text, ev = Uploader.SetError (Some (c :: text))).

(** A browser that cannot read any file. *)
Definition unreadable_browser : Uploader.Browser :=
  Uploader.mkBrowser (fun _ => None) (fun _ => Some (3000, 2000)) (fun _ => true)
    (fun _ _ _ _ => js "data:image/jpeg;base64,AAAA").

(** A browser that yields no canvas context. *)
Definition contextless_browser : Uploader.Browser :=
  Uploader.mkBrowser (fun _ => Some (js "data:image/png;base64,iVBORw0KGgo="))
    (fun _ => Some (3000, 2000)) (fun _ => false)
    (fun _ _ _ _ => js "data:image/jpeg;base64,AAAA").

(** * Properties *)

(** ** The definitions on concrete inputs *)

Example removeAll_fences :
  removeAll (js "```") (removeAll (js "```json") (js "```json[1]```")) = js "[1]".
Proof. reflexivity. Qed.

Example removeAll_leftmost : removeAll (js "```") (js "a````b``c") = js "a`b``c".
Proof. reflexivity. Qed.

Example trim_both_ends : trim ([32; 10; 160] ++ js "[ 1 ]" ++ [9; 13; 65279])%N = js "[ 1 ]".
Proof. reflexivity. Qed.

Example split_data_url :
  split 44%N (js "data:image/jpeg;base64,AAAA") = [js "data:image/jpeg;base64"; js "AAAA"].
Proof. reflexivity. Qed.

Example split_without_separator : split 44%N (js "AAAA") = [js "AAAA"].
Proof. reflexivity. Qed.

Example JSON_parse_minimal_array :
  option_map as_GradingResponse (JSON_parse minimal_array)
  = Some (Some [mkGradingResult (mkNumber false 1 0) (js "2+2=4") true []
                  (mkNumber false 0 0, mkNumber false 0 0,
                   mkNumber false 100 0, mkNumber false 500 0)]).
Proof. vm_compute. reflexivity. Qed.

Example JSON_parse_values :
  JSON_parse (jsq " [1.50e-3, -0, 'aA\n', {'k' : null, 'k' : false}, [ ], { }] ")
  = Some (JArray [JNumber (mkNumber false 150 (-5)); JNumber (mkNumber true 0 0);
                  JString [97; 65; 10]%N;
                  JObject [(js "k", JNull); (js "k", JBool false)];
                  JArray []; JObject []]).
Proof. vm_compute. reflexivity. Qed.

Example JSON_parse_rejects :
  map JSON_parse [js ""; js "01"; js "[1,]"; jsq "{'a':1,}"; js "1 2"; js "nul";
                  js "-"; js "1."; js "1e"; jsq "'abc"; jsq "{a:1}"; js "[1"]
  = repeat None 12.
Proof. vm_compute. reflexivity. Qed.

Example resize_samples :
  map (fun wh => Uploader.resize (fst wh) (snd wh))
      [(800, 600); (1024, 1024); (2048, 1024); (3000, 2000); (2000, 3000);
       (1025, 1025); (4096, 2); (4096, 1)]
  = [(800, 600); (1024, 1024); (1024, 512); (1024, 683); (683, 1024);
     (1024, 1024); (1024, 1); (1024, 0)].
Proof. vm_compute. reflexivity. Qed.

Example getBoxStyle_tenths :
  Page.getBoxStyle (5, 15, 1000, 999)
  = Page.mkBoxStyle (js "0.5%") (js "1.5%") (js "99.5%") (js "98.4%").
Proof. vm_compute. reflexivity. Qed.

Example POST_without_image :
  Route.POST (answering (inr (Some minimal_array))) (inr (JObject []))
  = ([], inr (error_response 400 (js "No image data provided"))).
Proof. vm_compute. reflexivity. Qed.

Example POST_body_not_json :
  Route.POST (answering (inr (Some minimal_array)))
             (inl (Route.mkError (Some (js "Unexpected end of JSON input"))))
  = ([Route.ConsoleError (js "API Error:")
        (Route.LoggedError (Route.mkError (Some (js "Unexpected end of JSON input"))))],
     inr (error_response 500 (js "Unexpected end of JSON input"))).
Proof. vm_compute. reflexivity. Qed.

(** The end-to-end case of the specification: a stub of the boundary that
    returns two lines, the second one wrong. *)
Example two_lines_end_to_end :
  exists v r1 r2,
    snd (Route.POST
           (answering (inr (Some (jsq
              "[{'lineNumber':1,'latex':'x=1','isCorrect':true,'explanation':'','boundingBox':[0,0,100,500]},{'lineNumber':2,'latex':'x=3','isCorrect':false,'explanation':'Sign error','boundingBox':[100,0,200,500]}]"))))
           (inr jpeg_body))
    = inr (results_response v)
    /\ as_GradingResponse v = Some [r1; r2]
    /\ isCorrect r1 = true /\ isCorrect r2 = false
    /\ explanation r2 = js "Sign error".
Proof. do 3 eexists. repeat split; vm_compute; reflexivity. Qed.

(** What the page shows when the boundary throws an error without a
    message. *)
Example failure_shown_on_the_page :
  Page.gradeImage sample_engine (Page.served_by (answering (inl (Route.mkError None))))
                  (js "data:image/jpeg;base64,AAAA")
  = [Uploader.SetIsLoading true;
     Uploader.Fetch (js "/api/grade") (js "POST") jpeg_body;
     Uploader.ServerSide (Route.GenerateContent (Route.request_for (Some (js "AAAA"))));
     Uploader.ServerSide (Route.ConsoleError (js "API Error:")
                            (Route.LoggedError (Route.mkError None)));
     Uploader.SetError (Some (js "Internal Server Error"));
     Uploader.SetIsLoading false].
Proof. vm_compute. reflexivity. Qed.

(** ** Strings *)

Section StringFacts.

Lemma startsWith_app p s t : startsWith p s = true -> startsWith p (s ++ t) = true.
Proof.
  revert s; induction p as [|a p IH]; intros [|b s]; simpl; try easy.
  intros H; apply andb_true_iff in H as [-> H]; simpl; auto.
Qed.

Lemma startsWith_self p s : startsWith p (p ++ s) = true.
Proof.
  induction p as [|a p IH]; simpl; [reflexivity|].
  now rewrite N.eqb_refl.
Qed.

Lemma includes_cons p c s : includes p (c :: s) = startsWith p (c :: s) || includes p s.
Proof. reflexivity. Qed.

Lemma includes_tail p c s : includes p (c :: s) = false -> includes p s = false.
Proof. rewrite includes_cons; intros H; now apply orb_false_iff in H. Qed.

Lemma includes_app_l p s t : includes p (s ++ t) = false -> includes p s = false.
Proof.
  induction s as [|c s IH]; simpl.
  - destruct p; [destruct t; simpl; intros H; discriminate H | reflexivity].
  - intros H; apply orb_false_iff in H as [H1 H2].
    apply orb_false_iff; split; [|auto].
    destruct (startsWith p (c :: s)) eqn:E; [|reflexivity].
    pose proof (startsWith_app p (c :: s) t E) as E'; simpl in E', H1; congruence.
Qed.

Lemma includes_trimStart p s : includes p s = false -> includes p (trimStart s) = false.
Proof.
  induction s as [|c s IH]; [easy|].
  intros H; simpl trimStart; destruct (isWhiteSpace c); [|exact H].
  apply IH; eapply includes_tail; eassumption.
Qed.

Lemma trimStart_suffix s : exists w, s = w ++ trimStart s.
Proof.
  induction s as [|c s [w IH]]; [now exists []|].
  simpl; destruct (isWhiteSpace c).
  - exists (c :: w); simpl; now f_equal.
  - now exists [].
Qed.

Lemma trimEnd_prefix s : exists w, s = trimEnd s ++ w.
Proof.
  unfold trimEnd; destruct (trimStart_suffix (rev s)) as [w H].
  exists (rev w); rewrite <- rev_app_distr, <- H; now rewrite rev_involutive.
Qed.

Lemma includes_trim p s : includes p s = false -> includes p (trim s) = false.
Proof.
  intros H; unfold trim.
  apply includes_trimStart in H.
  destruct (trimEnd_prefix (trimStart s)) as [w E].
  rewrite E in H; eapply includes_app_l; eassumption.
Qed.

(** Dropping the rest of a match is skipping that many code units. *)
Lemma removeAll_from_skipn p k s : removeAll_from p k s = removeAll p (skipn k s).
Proof.
  revert k; induction s as [|c s IH]; intros [|k]; try reflexivity.
  simpl removeAll_from; rewrite IH; reflexivity.
Qed.

Lemma removeAll_cons p c s :
  removeAll p (c :: s) =
  if startsWith p (c :: s) then removeAll p (skipn (Nat.pred (List.length p)) s)
  else c :: removeAll p s.
Proof.
  unfold removeAll at 1; cbn [removeAll_from].
  destruct (startsWith p (c :: s)); [apply removeAll_from_skipn | reflexivity].
Qed.

Lemma removeAll_match p s : p <> [] -> removeAll p (p ++ s) = removeAll p s.
Proof.
  destruct p as [|a p]; [easy|]; intros _.
  change ((a :: p) ++ s) with (a :: (p ++ s)).
  rewrite removeAll_cons.
  change (a :: p ++ s) with ((a :: p) ++ s); rewrite startsWith_self.
  simpl Nat.pred. now rewrite skipn_app, skipn_all, Nat.sub_diag.
Qed.

Lemma startsWith_trans a b s :
  startsWith a b = true -> startsWith b s = true -> startsWith a s = true.
Proof.
  revert b s; induction a as [|x a IH]; intros [|y b] [|z s]; simpl; try easy.
  intros H1 H2.
  apply andb_true_iff in H1 as [E1 H1]; apply andb_true_iff in H2 as [E2 H2].
  apply N.eqb_eq in E1, E2; subst; rewrite N.eqb_refl; simpl; eauto.
Qed.

Lemma fence_eq : fence = [backtick; backtick; backtick].
Proof. reflexivity. Qed.

Lemma backtick_eqb c : c <> backtick -> (backtick =? c)%N = false.
Proof. intros H; apply N.eqb_neq; congruence. Qed.

(** No fence starts at the head of [j ++ t] when [j] holds none and does not
    end in a backtick. *)
Lemma no_fence_at_head j t :
  j <> [] -> includes fence j = false -> last j 0%N <> backtick ->
  startsWith fence (j ++ t) = false.
Proof.
  rewrite fence_eq.
  destruct j as [|a [|b [|c j]]]; [easy| | |]; intros _ Hinc Hlast.
  - cbn [last] in Hlast. cbn [app startsWith]. now rewrite backtick_eqb.
  - cbn [last] in Hlast. cbn [app startsWith].
    rewrite (backtick_eqb b) by assumption. now rewrite andb_false_r.
  - rewrite includes_cons in Hinc. apply orb_false_iff in Hinc as [Hinc _].
    cbn [app startsWith] in *. exact Hinc.
Qed.

(** A pattern that begins with a fence leaves such a [j] untouched. *)
Lemma removeAll_keeps p j t :
  startsWith fence p = true ->
  includes fence j = false -> last j 0%N <> backtick ->
  removeAll p (j ++ t) = j ++ removeAll p t.
Proof.
  intros Hp; induction j as [|c j IH]; intros Hinc Hlast; [reflexivity|].
  change ((c :: j) ++ t) with (c :: (j ++ t)).
  rewrite removeAll_cons.
  destruct (startsWith p (c :: j ++ t)) eqn:E.
  - pose proof (startsWith_trans _ _ _ Hp E) as E'.
    change (c :: j ++ t) with ((c :: j) ++ t) in E'.
    rewrite no_fence_at_head in E'; [discriminate| easy | assumption | assumption].
  - simpl; f_equal. destruct j as [|d j]; [reflexivity|].
    apply IH; [eapply includes_tail; eassumption | exact Hlast].
Qed.

Lemma blank_no_fence w : blank w -> includes fence w = false.
Proof.
  induction 1 as [|c w Hc _ IH]; [reflexivity|].
  rewrite includes_cons, IH, orb_false_r, fence_eq.
  cbn [startsWith]. rewrite backtick_eqb; [reflexivity|].
  intros ->; discriminate Hc.
Qed.

Lemma blank_last w : blank w -> last w 0%N <> backtick.
Proof.
  induction 1 as [|c w Hc Hw IH]; [easy|].
  destruct w as [|d w]; [|exact IH].
  simpl; intros ->; discriminate Hc.
Qed.

Lemma removeAll_blank p w t :
  startsWith fence p = true -> blank w -> removeAll p (w ++ t) = w ++ removeAll p t.
Proof.
  intros Hp Hw; apply removeAll_keeps;
    [exact Hp | now apply blank_no_fence | now apply blank_last].
Qed.

Lemma trimStart_blank w s : blank w -> trimStart (w ++ s) = trimStart s.
Proof. induction 1 as [|c w Hc _ IH]; [reflexivity|]; simpl; now rewrite Hc. Qed.

Lemma blank_rev w : blank w -> blank (rev w).
Proof. apply Forall_rev. Qed.

(** Trimming strips the blanks around a text that neither begins nor ends
    with whitespace. *)
Lemma trim_blank a b c m z :
  blank a -> blank b -> isWhiteSpace c = false -> isWhiteSpace z = false ->
  trim (a ++ (c :: m ++ [z]) ++ b) = c :: m ++ [z].
Proof.
  intros Ha Hb Hc Hz; unfold trim, trimEnd.
  rewrite trimStart_blank by assumption.
  simpl trimStart; rewrite Hc.
  change (c :: (m ++ [z]) ++ b) with ((c :: m ++ [z]) ++ b).
  rewrite rev_app_distr, trimStart_blank by now apply blank_rev.
  change (c :: m ++ [z]) with ((c :: m) ++ [z]).
  rewrite (rev_app_distr (c :: m) [z]).
  change (rev [z] ++ rev (c :: m)) with (z :: rev (c :: m)).
  cbn [trimStart]; rewrite Hz.
  change (z :: rev (c :: m)) with (rev [z] ++ rev (c :: m)).
  rewrite <- (rev_app_distr (c :: m) [z]). apply rev_involutive.
Qed.

Lemma startsWith_fence_lead s : startsWith fence s = (3 <=? lead s)%nat.
Proof.
  rewrite fence_eq.
  destruct s as [|a [|b [|c s]]]; cbn [startsWith lead];
    repeat match goal with
           | |- context [(backtick =? ?x)%N] =>
             rewrite (N.eqb_sym backtick x); destruct (x =? backtick)%N
           end; reflexivity.
Qed.

(** After the removal of the fences no fence is left, and the backticks at
    the head are those that were there. *)
Lemma removeAll_fence_sound n s :
  (List.length s <= n)%nat ->
  includes fence (removeAll fence s) = false
  /\ (startsWith fence s = false -> lead (removeAll fence s) = lead s).
Proof.
  revert s; induction n as [|n IH]; intros s Hn.
  - destruct s; [now split | simpl in Hn; lia].
  - destruct s as [|c s]; [now split|].
    rewrite removeAll_cons. simpl in Hn.
    destruct (startsWith fence (c :: s)) eqn:E.
    + split; [|discriminate].
      apply IH. rewrite length_skipn. lia.
    + destruct (IH s ltac:(lia)) as [IH1 IH2].
      assert (Hlead : lead (c :: removeAll fence s) = lead (c :: s)).
      { cbn [lead]. destruct (c =? backtick)%N eqn:Ec; [|reflexivity].
        f_equal. apply IH2.
        rewrite startsWith_fence_lead in E |- *. cbn [lead] in E. rewrite Ec in E.
        apply Nat.leb_gt in E. apply Nat.leb_gt. lia. }
      split; [|intros _; exact Hlead].
      rewrite includes_cons, IH1, orb_false_r.
      rewrite startsWith_fence_lead, Hlead, <- startsWith_fence_lead. exact E.
Qed.

Lemma cleanJson_no_fence raw : includes fence (Route.cleanJson raw) = false.
Proof.
  unfold Route.cleanJson. apply includes_trim.
  eapply (proj1 (removeAll_fence_sound _ _ (Nat.le_refl _))).
Qed.

Lemma blank_app a b : blank a -> blank b -> blank (a ++ b).
Proof. intros; apply Forall_app; now split. Qed.

Lemma removeAll_nil p : removeAll p [] = [].
Proof. reflexivity. Qed.

Lemma removeAll_blank_end p w :
  startsWith fence p = true -> blank w -> removeAll p w = w.
Proof.
  intros Hp Hw. rewrite <- (app_nil_r w) at 1.
  rewrite removeAll_blank by assumption. now rewrite removeAll_nil, app_nil_r.
Qed.

(** Two strings that differ at some position: neither begins with the other. *)
Lemma startsWith_differ k p s a b :
  nth_error p k = Some a -> nth_error s k = Some b -> a <> b ->
  startsWith p s = false.
Proof.
  revert p s; induction k as [|k IH]; intros [|x p] [|y s]; simpl; try easy.
  - intros [= ->] [= ->] H. apply N.eqb_neq in H. now rewrite H.
  - intros Hp Hs H. rewrite (IH _ _ Hp Hs H). apply andb_false_r.
Qed.

(** The first replacement, of the fence with the language tag, does not
    touch a closing fence that whitespace follows. *)
Lemma fence_json_spares_fence w :
  blank w -> removeAll fence_json (fence ++ w) = fence ++ w.
Proof.
  intros Hw. destruct Hw as [|x w Hx Hw]; [reflexivity|].
  assert (Hj : 106%N <> x) by (intros <-; discriminate Hx).
  assert (Hb : backtick <> x) by (intros <-; discriminate Hx).
  rewrite fence_eq. cbn [app].
  rewrite removeAll_cons, (startsWith_differ 3 fence_json _ 106%N x) by easy.
  rewrite removeAll_cons, (startsWith_differ 2 fence_json _ backtick x) by easy.
  rewrite removeAll_cons, (startsWith_differ 1 fence_json _ backtick x) by easy.
  rewrite removeAll_blank_end; [reflexivity | reflexivity | now constructor].
Qed.

(** The cleanup of a text [c :: m ++ [z]] that holds no fence, does not end in
    a backtick and has no whitespace at either end, with whitespace around it
    and, when [fenced], the markers of a fence around that. *)
Lemma cleanJson_wrapped (fenced : bool) w1 w2 w3 w4 c m z :
  blank w1 -> blank w2 -> blank w3 -> blank w4 ->
  isWhiteSpace c = false -> isWhiteSpace z = false -> z <> backtick ->
  includes fence (c :: m ++ [z]) = false ->
  Route.cleanJson
    (w1 ++ (if fenced then fence_json else []) ++ w2 ++ (c :: m ++ [z]) ++ w3
        ++ (if fenced then fence else []) ++ w4)
  = c :: m ++ [z].
Proof.
  intros H1 H2 H3 H4 Hc Hz Hzb Hinc.
  set (j := c :: m ++ [z]) in *.
  assert (Hlast : last j 0%N <> backtick).
  { unfold j. change (c :: m ++ [z]) with ((c :: m) ++ [z]). now rewrite last_last. }
  assert (Hfj : startsWith fence fence_json = true) by reflexivity.
  assert (Hf : startsWith fence fence = true) by reflexivity.
  unfold Route.cleanJson.
  change (js "```json") with fence_json; change (js "```") with fence.
  assert (E1 : removeAll fence_json
                 (w1 ++ (if fenced then fence_json else []) ++ w2 ++ j ++ w3
                     ++ (if fenced then fence else []) ++ w4)
               = w1 ++ w2 ++ j ++ w3 ++ (if fenced then fence else []) ++ w4).
  { rewrite removeAll_blank by assumption. f_equal.
    assert (E : removeAll fence_json (w2 ++ j ++ w3 ++ (if fenced then fence else []) ++ w4)
                = w2 ++ j ++ w3 ++ (if fenced then fence else []) ++ w4).
    { rewrite removeAll_blank by assumption. f_equal.
      rewrite removeAll_keeps by assumption. f_equal.
      rewrite removeAll_blank by assumption. f_equal.
      destruct fenced; [now apply fence_json_spares_fence|].
      now apply removeAll_blank_end. }
    destruct fenced; [|exact E].
    rewrite removeAll_match by discriminate. exact E. }
  rewrite E1.
  assert (E2 : removeAll fence (w1 ++ w2 ++ j ++ w3 ++ (if fenced then fence else []) ++ w4)
               = (w1 ++ w2) ++ j ++ (w3 ++ w4)).
  { rewrite <- !app_assoc.
    rewrite removeAll_blank by assumption. f_equal.
    rewrite removeAll_blank by assumption. f_equal.
    rewrite removeAll_keeps by assumption. f_equal.
    rewrite removeAll_blank by assumption. f_equal.
    destruct fenced.
    - rewrite removeAll_match by discriminate. now apply removeAll_blank_end.
    - now apply removeAll_blank_end. }
  rewrite E2. unfold j.
  apply trim_blank; auto using blank_app.
Qed.

End StringFacts.

(** ** [JSON.parse] never runs out of its budget *)

Section JsonFacts.

Lemma skip_ws_length s : (List.length (skip_ws s) <= List.length s)%nat.
Proof.
  induction s as [|c s IH]; [reflexivity|].
  simpl. destruct (is_json_ws c); simpl; lia.
Qed.

Lemma push_length c r str rest :
  push c r = Some (str, rest) -> exists str', r = Some (str', rest).
Proof. destruct r as [[str' rest']|]; [intros [= _ ->]; now eexists | discriminate]. Qed.

Lemma parse_chars_length n s str rest :
  (List.length s <= n)%nat ->
  parse_chars s = Some (str, rest) -> (List.length rest < List.length s)%nat.
Proof.
  revert s str; induction n as [|n IH]; intros s str Hn.
  - destruct s; [discriminate | simpl in Hn; lia].
  - destruct s as [|c s1]; [discriminate|]. cbn [parse_chars].
    simpl in Hn.
    destruct (c =? 34)%N; [intros [= _ ->]; simpl; lia|].
    destruct (c =? 92)%N.
    + destruct s1 as [|e s2]; [discriminate|]. simpl in Hn.
      destruct (e =? 117)%N.
      * destruct s2 as [|h1 [|h2 [|h3 [|h4 s3]]]]; try discriminate.
        destruct (hex4 h1 h2 h3 h4); [|discriminate].
        intros H; apply push_length in H as [str' H].
        apply IH in H; simpl in *; lia.
      * destruct (escape e); [|discriminate].
        intros H; apply push_length in H as [str' H].
        apply IH in H; simpl in *; lia.
    + destruct (c <? 32)%N; [discriminate|].
      intros H; apply push_length in H as [str' H].
      apply IH in H; simpl in *; lia.
Qed.

Lemma span_digits_length s ds rest :
  span_digits s = (ds, rest) -> List.length s = (List.length ds + List.length rest)%nat.
Proof.
  revert ds rest; induction s as [|c s IH]; intros ds rest; simpl.
  - now intros [= <- <-].
  - destruct (is_digit c).
    + destruct (span_digits s) as [ds' rest'] eqn:E. intros [= <- <-].
      simpl. now rewrite (IH _ _ eq_refl).
    + now intros [= <- <-].
Qed.

Lemma span_digits_nonempty c s ds rest :
  is_digit c = true -> span_digits (c :: s) = (ds, rest) -> (0 < List.length ds)%nat.
Proof.
  intros Hc. simpl. rewrite Hc. destruct (span_digits s). intros [= <- _]. simpl; lia.
Qed.

Lemma parse_number_length s n rest :
  parse_number s = Some (n, rest) -> (List.length rest < List.length s)%nat.
Proof.
  unfold parse_number. intros H.
  repeat match goal with
         | E : context [match ?x with _ => _ end] |- _ =>
           destruct x eqn:?; try discriminate
         end.
  all: repeat match goal with
              | E : (if is_digit ?c then let (_, _) := span_digits ?x in _ else _) = ?r |- _ =>
                change (span_digits (c :: x) = r) in E
              | E : span_digits (?c :: _) = _, D : is_digit ?c = true |- _ =>
                pose proof (span_digits_nonempty _ _ _ _ D E); apply span_digits_length in E
              | E : span_digits _ = _ |- _ => apply span_digits_length in E
              | E : Some _ = Some _ |- _ => first [injection E; clear E; intros | clear E]
              | E : (_, _) = (_, _) |- _ => first [injection E; clear E; intros | clear E]
              end.
  all: subst; simpl in *; lia.
Qed.

Lemma parse_literal_length name v s v' rest :
  name <> [] -> parse_literal name v s = Parsed v' rest ->
  (List.length rest < List.length s)%nat.
Proof.
  unfold parse_literal. intros Hname.
  destruct (startsWith name s) eqn:E; [|discriminate]. intros [= _ <-].
  destruct name as [|a name]; [easy|]. destruct s as [|b s]; [discriminate E|].
  rewrite length_skipn. simpl. lia.
Qed.

(** With a budget of twice the length of the text and one more, a value is
    parsed or refused, and parsing reads at least one code unit; the elements
    of an array and the members of an object need one more. *)
Lemma parse_within_budget fuel :
  (forall s, (2 * List.length s + 1 <= fuel)%nat ->
     parse_value fuel s <> OutOfFuel
     /\ forall v rest, parse_value fuel s = Parsed v rest ->
                       (List.length rest < List.length s)%nat)
  /\ (forall s, (2 * List.length s + 2 <= fuel)%nat ->
        parse_elements fuel s <> OutOfFuel
        /\ forall vs rest, parse_elements fuel s = Parsed vs rest ->
                           (List.length rest < List.length s)%nat)
  /\ (forall s, (2 * List.length s + 2 <= fuel)%nat ->
        parse_members fuel s <> OutOfFuel
        /\ forall ms rest, parse_members fuel s = Parsed ms rest ->
                           (List.length rest < List.length s)%nat).
Proof.
  induction fuel as [|fuel (IHv & IHe & IHm)].
  { repeat split; intros; lia. }
  split; [|split]; intros s Hfuel.
  - destruct s as [|c s']; [split; [discriminate | intros ? ? [=]]|].
    cbn [parse_value]. simpl in Hfuel.
    pose proof (skip_ws_length s') as Hws.
    destruct (c =? 123)%N.
    { destruct (skip_ws s') as [|c2 s2] eqn:E; [split; [discriminate | intros ? ? [=]]|].
      destruct (c2 =? 125)%N.
      { split; [discriminate|]. intros v rest [= _ <-]. simpl in *; lia. }
      destruct (IHm (c2 :: s2) ltac:(simpl in *; lia)) as [Hne Hlen].
      destruct (parse_members fuel (c2 :: s2)) as [ms rest| |]; [| |easy].
      - split; [discriminate|]. intros v r [= _ <-].
        specialize (Hlen ms rest eq_refl). simpl in *; lia.
      - split; [discriminate | intros ? ? [=]]. }
    destruct (c =? 91)%N.
    { destruct (skip_ws s') as [|c2 s2] eqn:E; [split; [discriminate | intros ? ? [=]]|].
      destruct (c2 =? 93)%N.
      { split; [discriminate|]. intros v rest [= _ <-]. simpl in *; lia. }
      destruct (IHe (c2 :: s2) ltac:(simpl in *; lia)) as [Hne Hlen].
      destruct (parse_elements fuel (c2 :: s2)) as [vs rest| |]; [| |easy].
      - split; [discriminate|]. intros v r [= _ <-].
        specialize (Hlen vs rest eq_refl). simpl in *; lia.
      - split; [discriminate | intros ? ? [=]]. }
    destruct (c =? 34)%N.
    { destruct (parse_chars s') as [[str rest]|] eqn:E; [|split; [discriminate | intros ? ? [=]]].
      split; [discriminate|]. intros v r [= _ <-].
      apply (parse_chars_length _ _ _ _ (Nat.le_refl _)) in E. simpl; lia. }
    assert (Lit : forall name v0,
               name <> [] ->
               parse_literal name v0 (c :: s') <> OutOfFuel
               /\ forall v rest, parse_literal name v0 (c :: s') = Parsed v rest ->
                                 (List.length rest < List.length (c :: s'))%nat).
    { intros name v0 Hname. split.
      - unfold parse_literal. destruct (startsWith name (c :: s')); discriminate.
      - intros v rest. now apply parse_literal_length. }
    destruct (c =? 110)%N; [apply Lit; discriminate|].
    destruct (c =? 116)%N; [apply Lit; discriminate|].
    destruct (c =? 102)%N; [apply Lit; discriminate|].
    destruct (parse_number (c :: s')) as [[n rest]|] eqn:E;
      [|split; [discriminate | intros ? ? [=]]].
    split; [discriminate|]. intros v r [= _ <-].
    now apply parse_number_length in E.
  - cbn [parse_elements].
    destruct (IHv s ltac:(lia)) as [Hne Hlen].
    destruct (parse_value fuel s) as [v rest| |]; [| |easy];
      [|split; [discriminate | intros ? ? [=]]].
    specialize (Hlen v rest eq_refl).
    pose proof (skip_ws_length rest) as Hws.
    destruct (skip_ws rest) as [|c r] eqn:E; [split; [discriminate | intros ? ? [=]]|].
    pose proof (skip_ws_length r) as Hws'.
    destruct (c =? 44)%N.
    { destruct (IHe (skip_ws r) ltac:(simpl in *; lia)) as [Hne' Hlen'].
      destruct (parse_elements fuel (skip_ws r)) as [vs rest'| |]; [| |easy].
      - split; [discriminate|]. intros vs0 r0 [= _ <-].
        specialize (Hlen' vs rest' eq_refl). simpl in *; lia.
      - split; [discriminate | intros ? ? [=]]. }
    destruct (c =? 93)%N; [|split; [discriminate | intros ? ? [=]]].
    split; [discriminate|]. intros vs0 r0 [= _ <-]. simpl in *; lia.
  - cbn [parse_members].
    destruct s as [|c s1]; [split; [discriminate | intros ? ? [=]]|].
    simpl in Hfuel.
    destruct (c =? 34)%N; [|split; [discriminate | intros ? ? [=]]].
    destruct (parse_chars s1) as [[key s2]|] eqn:Ek; [|split; [discriminate | intros ? ? [=]]].
    apply (parse_chars_length _ _ _ _ (Nat.le_refl _)) in Ek.
    pose proof (skip_ws_length s2) as Hws2.
    destruct (skip_ws s2) as [|c2 s3] eqn:E2; [split; [discriminate | intros ? ? [=]]|].
    destruct (c2 =? 58)%N; [|split; [discriminate | intros ? ? [=]]].
    pose proof (skip_ws_length s3) as Hws3.
    destruct (IHv (skip_ws s3) ltac:(simpl in *; lia)) as [Hne Hlen].
    destruct (parse_value fuel (skip_ws s3)) as [v rest| |]; [| |easy];
      [|split; [discriminate | intros ? ? [=]]].
    specialize (Hlen v rest eq_refl).
    pose proof (skip_ws_length rest) as Hws.
    destruct (skip_ws rest) as [|c3 r] eqn:E; [split; [discriminate | intros ? ? [=]]|].
    pose proof (skip_ws_length r) as Hws'.
    destruct (c3 =? 44)%N.
    { destruct (IHm (skip_ws r) ltac:(simpl in *; lia)) as [Hne' Hlen'].
      destruct (parse_members fuel (skip_ws r)) as [ms rest'| |]; [| |easy].
      - split; [discriminate|]. intros ms0 r0 [= _ <-].
        specialize (Hlen' ms rest' eq_refl). simpl in *; lia.
      - split; [discriminate | intros ? ? [=]]. }
    destruct (c3 =? 125)%N; [|split; [discriminate | intros ? ? [=]]].
    split; [discriminate|]. intros ms0 r0 [= _ <-]. simpl in *; lia.
Qed.

(** [JSON_parse] refuses a text for its syntax only. *)
Lemma parse_never_out_of_fuel text :
  parse_value (budget text) (skip_ws text) <> OutOfFuel.
Proof.
  apply (proj1 (parse_within_budget (budget text))).
  unfold budget. pose proof (skip_ws_length text). lia.
Qed.

End JsonFacts.

(** ** The parser of the model output *)

Section Parser.
Import Route.

Lemma blank_of_forallb w : forallb isWhiteSpace w = true -> blank w.
Proof.
  intros H; apply Forall_forall; intros c Hc.
  exact (proj1 (forallb_forall _ _) H c Hc).
Qed.

Lemma includes_weaken a b s :
  startsWith a b = true -> includes a s = false -> includes b s = false.
Proof.
  intros Hab; induction s as [|c s IH].
  - simpl. rewrite !orb_false_r. intros Ha.
    destruct (startsWith b []) eqn:E; [|reflexivity].
    now rewrite (startsWith_trans _ _ _ Hab E) in Ha.
  - rewrite !includes_cons. intros H; apply orb_false_iff in H as [H1 H2].
    rewrite (IH H2), orb_false_r.
    destruct (startsWith b (c :: s)) eqn:E; [|reflexivity].
    now rewrite (startsWith_trans _ _ _ Hab E) in H1.
Qed.

(** What the inner [try] yields, by the cleaned text. *)
Lemma parse_results_text raw :
  parse_results (Some raw) =
  match JSON_parse (cleanJson raw) with
  | Some v => ([], inr (inr v))
  | None =>
    ([ConsoleError (js "JSON Parse Error:") (LoggedText (Some raw))],
     inr (inl parse_error_response))
  end.
Proof.
  unfold parse_results, cleanJson_of, JSON_parse_eff.
  cbn [bind ret]. destruct (JSON_parse (cleanJson raw)); reflexivity.
Qed.

(** C1 (as amended).  Take the text of a JSON array, from its opening to its
    closing bracket, that [JSON.parse] accepts and that holds no triple
    backtick.  Put whitespace around it and, when [fenced], the markers of a
    json fence around that, again with whitespace around them.  The parser
    strips markers and whitespace and returns exactly the value [JSON.parse]
    gives for the array text: the same elements with the same field values in
    the same order, hence the same [GradingResult]s; fenced or not, the result
    is that of the bare text. *)
Theorem parser_preserves_fence_free_array
    (fenced : bool) (w1 w2 w3 w4 m : jsstring) (v : value) (rs : list GradingResult) :
  let j := 91%N :: m ++ [93%N] in
  let raw := w1 ++ (if fenced then fence_json else []) ++ w2 ++ j ++ w3
                ++ (if fenced then fence else []) ++ w4 in
  forallb isWhiteSpace (w1 ++ w2 ++ w3 ++ w4) = true ->
  includes fence j = false ->
  JSON_parse j = Some v ->
  as_GradingResponse v = Some rs ->
  parse_results (Some raw) = ([], inr (inr v))
  /\ parse_results (Some raw) = parse_results (Some j)
  /\ (exists v', parse_results (Some raw) = ([], inr (inr v'))
                 /\ as_GradingResponse v' = Some rs).
Proof.
  intros j raw Hw Hinc Hv Hrs.
  rewrite !forallb_app in Hw.
  repeat (apply andb_true_iff in Hw as [? Hw]).
  assert (E : cleanJson raw = j).
  { unfold raw, j. apply cleanJson_wrapped; auto using blank_of_forallb; easy. }
  assert (E' : cleanJson j = j).
  { pose proof (cleanJson_wrapped false [] [] [] [] 91%N m 93%N) as C.
    cbn [app] in C. rewrite !app_nil_r in C.
    apply C; try constructor; easy. }
  assert (R : parse_results (Some raw) = ([], inr (inr v))).
  { now rewrite parse_results_text, E, Hv. }
  repeat split.
  - exact R.
  - now rewrite R, parse_results_text, E', Hv.
  - exists v; now split.
Qed.

Lemma parser_preserves_fence_free_array_witness :
  parse_results (Some (js "```json" ++ [10%N] ++ minimal_array ++ [10%N] ++ js "```"))
  = parse_results (Some minimal_array).
Proof.
  pose proof (parser_preserves_fence_free_array true [] [10%N] [10%N] []
                (removelast (tl minimal_array))) as H.
  cbv zeta in H.
  destruct (JSON_parse minimal_array) as [v|] eqn:Ev; [|vm_compute in Ev; discriminate Ev].
  destruct (as_GradingResponse v) as [rs|] eqn:Er;
    [|vm_compute in Ev; injection Ev as <-; vm_compute in Er; discriminate Er].
  specialize (H v rs eq_refl eq_refl Ev Er).
  exact (proj1 (proj2 H)).
Defined.

(** C1 as stated fails: a valid array of grading objects whose transcription
    is a triple backtick does not come back with its field values. *)
Lemma parser_alters_fence_in_string :
  ~ (forall j v rs,
        JSON_parse j = Some v -> as_GradingResponse v = Some rs ->
        exists v', parse_results (Some j) = ([], inr (inr v'))
                   /\ as_GradingResponse v' = Some rs).
Proof.
  intros H.
  destruct (JSON_parse fence_in_latex) as [v|] eqn:Ev; [|vm_compute in Ev; discriminate Ev].
  destruct (as_GradingResponse v) as [rs|] eqn:Er;
    [|vm_compute in Ev; injection Ev as <-; vm_compute in Er; discriminate Er].
  destruct (H fence_in_latex v rs Ev Er) as (v' & E1 & E2).
  vm_compute in Ev; injection Ev as <-.
  vm_compute in E1; injection E1 as <-.
  vm_compute in Er, E2. congruence.
Qed.

End Parser.

(** ** The cleanup, occurrence by occurrence *)

Section Occurrences.
Import Route.

Lemma no_backtick_no_fence x : no_backtick x = true -> includes fence x = false.
Proof.
  unfold no_backtick. induction x as [|c x IH]; [reflexivity|].
  cbn [forallb]. intros H; apply andb_true_iff in H as [Hc Hx].
  apply negb_true_iff in Hc.
  rewrite includes_cons, (IH Hx), orb_false_r, fence_eq.
  cbn [startsWith]. now rewrite N.eqb_sym, Hc.
Qed.

Lemma no_backtick_last x : no_backtick x = true -> last x 0%N <> backtick.
Proof.
  unfold no_backtick. induction x as [|c x IH]; [easy|].
  cbn [forallb]. intros H; apply andb_true_iff in H as [Hc Hx].
  destruct x as [|d x]; [|exact (IH Hx)].
  apply negb_true_iff, N.eqb_neq in Hc. exact Hc.
Qed.

Lemma removeAll_piece p x t :
  startsWith fence p = true -> no_backtick x = true ->
  removeAll p (x ++ t) = x ++ removeAll p t.
Proof.
  intros Hp Hx. apply removeAll_keeps;
    [exact Hp | now apply no_backtick_no_fence | now apply no_backtick_last].
Qed.

Lemma lead_backtick s : lead (backtick :: s) = S (lead s).
Proof. cbn [lead]. now rewrite N.eqb_refl. Qed.

Lemma lead_piece x t : no_backtick x = true -> x <> [] -> lead (x ++ t) = 0%nat.
Proof.
  destruct x as [|c x]; [easy|]. unfold no_backtick. cbn [forallb app lead].
  intros H _; apply andb_true_iff in H as [Hc _].
  apply negb_true_iff in Hc. now rewrite Hc.
Qed.

(** A text in segments is empty or begins with a marker. *)
Lemma lead_with_fences segs :
  with_fences segs = [] \/ (3 <= lead (with_fences segs))%nat.
Proof.
  destruct segs as [|[tagged x] segs]; [now left|]. right.
  unfold with_fences. cbn [map List.concat fst snd].
  destruct tagged; cbn [marker];
    [change fence_json with (backtick :: backtick :: backtick :: js "json")
    | rewrite fence_eq];
    cbn [app]; rewrite !lead_backtick; lia.
Qed.

(** Where the tagged marker matches, exactly three backticks lead and the tag
    follows them. *)
Lemma fence_json_at_head s :
  startsWith fence_json s = true ->
  lead s = 3%nat /\ startsWith (js "json") (skipn 3 s) = true.
Proof.
  change fence_json with (backtick :: backtick :: backtick :: js "json").
  destruct s as [|a [|b [|c s]]]; cbn [startsWith]; try easy;
    try (rewrite ?andb_false_r; discriminate).
  intros H.
  apply andb_true_iff in H as [Ha H]; apply andb_true_iff in H as [Hb H];
    apply andb_true_iff in H as [Hc H].
  apply N.eqb_eq in Ha, Hb, Hc. subst a b c.
  rewrite !lead_backtick. cbn [skipn]. split; [|exact H].
  destruct s as [|d s]; [discriminate H|].
  change (js "json") with (106%N :: js "son") in H. cbn [startsWith] in H.
  apply andb_true_iff in H as [Hd _]. apply N.eqb_eq in Hd. subst d.
  reflexivity.
Qed.

(** A pattern that matches at the head of [x ++ t] matches within [x], or
    one of its code units is the first of [t]. *)
Lemma startsWith_app_split p x t :
  startsWith p (x ++ t) = true ->
  startsWith p x = true \/ exists c, In c p /\ hd_error t = Some c.
Proof.
  revert x; induction p as [|a p IH]; intros x; [now left|].
  destruct x as [|b x].
  - cbn [app]. destruct t as [|c t]; [discriminate|]. cbn [startsWith].
    intros H; apply andb_true_iff in H as [Hc _]. apply N.eqb_eq in Hc. subst c.
    right. exists a. split; [now left | reflexivity].
  - cbn [app startsWith]. intros H; apply andb_true_iff in H as [Hb H].
    destruct (IH x H) as [Hx|(c & Hc & Ht)].
    + left. now rewrite Hb, Hx.
    + right. exists c. split; [now right | exact Ht].
Qed.

(** The tag does not begin the rest of a text whose next piece does not
    begin with it. *)
Lemma no_tag_ahead x segs :
  startsWith (js "json") x = false ->
  startsWith (js "json") (x ++ with_fences segs) = false.
Proof.
  intros Hx. destruct (startsWith (js "json") (x ++ with_fences segs)) eqn:E;
    [|reflexivity].
  destruct (startsWith_app_split _ _ _ E) as [H|(c & Hc & Ht)]; [congruence|].
  destruct segs as [|[tagged y] segs]; [discriminate Ht|].
  unfold with_fences in Ht. cbn [map List.concat fst snd] in Ht.
  assert (c = backtick) by (destruct tagged; cbn in Ht; injection Ht as <-; reflexivity).
  subst c. cbn in Hc. unfold backtick in Hc.
  repeat (destruct Hc as [Hc|Hc]; [discriminate Hc|]). destruct Hc.
Qed.

(** The first replacement leaves a marker without tag where it is. *)
Lemma fence_json_spares_untagged y :
  lead y <> 1%nat -> lead y <> 2%nat ->
  (lead y = 0%nat -> startsWith (js "json") y = false) ->
  removeAll fence_json (fence ++ y) = fence ++ removeAll fence_json y.
Proof.
  intros L1 L2 Ltag. rewrite fence_eq. cbn [app].
  rewrite removeAll_cons.
  destruct (startsWith fence_json (backtick :: backtick :: backtick :: y)) eqn:E0.
  { apply fence_json_at_head in E0 as [E0 Etag]. rewrite !lead_backtick in E0.
    cbn [skipn] in Etag. rewrite Ltag in Etag by lia. discriminate Etag. }
  f_equal. rewrite removeAll_cons.
  destruct (startsWith fence_json (backtick :: backtick :: y)) eqn:E1.
  { apply fence_json_at_head in E1 as [E1 _]. rewrite !lead_backtick in E1. lia. }
  f_equal. rewrite removeAll_cons.
  destruct (startsWith fence_json (backtick :: y)) eqn:E2.
  { apply fence_json_at_head in E2 as [E2 _]. rewrite !lead_backtick in E2. lia. }
  reflexivity.
Qed.

(** Both replacements on a text in segments: every marker goes, every piece
    stays. *)
Lemma both_replacements segs :
  forallb piece_ok segs = true ->
  removeAll fence (removeAll fence_json (with_fences segs)) = without_fences segs.
Proof.
  induction segs as [|[tagged x] segs IH]; [reflexivity|].
  cbn [forallb]. intros H; apply andb_true_iff in H as [Hseg Hsegs].
  unfold piece_ok in Hseg. cbn [fst snd] in Hseg.
  apply andb_true_iff in Hseg as [Hx Htag].
  unfold with_fences, without_fences. cbn [map List.concat fst snd].
  fold (with_fences segs). fold (without_fences segs).
  rewrite <- app_assoc.
  destruct tagged; cbn [marker].
  - rewrite removeAll_match by discriminate.
    rewrite removeAll_piece by (reflexivity || exact Hx).
    rewrite removeAll_piece by (reflexivity || exact Hx).
    now rewrite (IH Hsegs).
  - cbn [orb] in Htag. apply negb_true_iff in Htag.
    rewrite fence_json_spares_untagged.
    + rewrite removeAll_match by discriminate.
      rewrite removeAll_piece by (reflexivity || exact Hx).
      rewrite removeAll_piece by (reflexivity || exact Hx).
      now rewrite (IH Hsegs).
    + destruct x as [|c x];
        [|rewrite (lead_piece (c :: x)) by (exact Hx || discriminate); lia].
      cbn [app]. destruct (lead_with_fences segs) as [->|L]; [cbn; lia | lia].
    + destruct x as [|c x];
        [|rewrite (lead_piece (c :: x)) by (exact Hx || discriminate); lia].
      cbn [app]. destruct (lead_with_fences segs) as [->|L]; [cbn; lia | lia].
    + intros _. now apply no_tag_ahead.
Qed.

(** C10.  The cleanup removes every fence marker wherever it stands, the
    tagged ones together with their tag: of a text made of pieces without
    backticks, with a marker before each piece but the first, it keeps the
    pieces, joined and trimmed.  It leaves no triple backtick in the text it
    hands to [JSON.parse].  And for a valid array of grading objects with
    triple backticks inside its strings the parsed response has field values
    other than those of the raw JSON parsed directly. *)
Theorem cleanup_removes_every_fence :
  (forall first segs,
      no_backtick first = true -> forallb piece_ok segs = true ->
      cleanJson (first ++ with_fences segs) = trim (first ++ without_fences segs))
  /\ (forall raw, includes fence (cleanJson raw) = false
                  /\ includes fence_json (cleanJson raw) = false)
  /\ exists j v r v' r',
       JSON_parse j = Some v /\ as_GradingResponse v = Some [r]
       /\ includes fence (latex r) = true
       /\ parse_results (Some j) = ([], inr (inr v'))
       /\ as_GradingResponse v' = Some [r']
       /\ latex r' <> latex r /\ explanation r' <> explanation r.
Proof.
  split; [|split].
  - intros first segs Hfirst Hsegs. unfold cleanJson.
    change (js "```json") with fence_json; change (js "```") with fence.
    rewrite removeAll_piece by (reflexivity || exact Hfirst).
    rewrite removeAll_piece by (reflexivity || exact Hfirst).
    now rewrite both_replacements.
  - intros raw; split; [apply cleanJson_no_fence|].
    apply (includes_weaken fence); [reflexivity | apply cleanJson_no_fence].
  - exists fences_in_strings.
    destruct (JSON_parse fences_in_strings) as [v|] eqn:Ev;
      [|vm_compute in Ev; discriminate Ev].
    destruct (parse_results (Some fences_in_strings)) as [t [e|[resp|v']]] eqn:Ep;
      try (vm_compute in Ep; discriminate Ep).
    vm_compute in Ev; injection Ev as <-.
    vm_compute in Ep; injection Ep as <- <-.
    do 4 eexists. repeat split; try (vm_compute; reflexivity); vm_compute; discriminate.
Qed.

Lemma cleanup_removes_every_fence_witness :
  cleanJson (js "see " ++ js "```json" ++ js "[1]" ++ js "```" ++ js " and " ++ js "```" ++ js "[2] ")
  = js "see [1] and [2]".
Proof.
  exact (proj1 cleanup_removes_every_fence (js "see ")
           [(true, js "[1]"); (false, js " and "); (false, js "[2] ")]
           eq_refl eq_refl).
Defined.

End Occurrences.


(** ** The handler of [/api/grade] *)

Section Handler.
Import Route.

Variable p : Platform.

(** The handler on a body whose [image] is a non-empty string, by what the
    inference boundary answers. *)
Lemma POST_image_string ms s :
  get (js "image") ms = Some (JString s) -> s <> [] ->
  let request := request_for (nth_error (split 44%N s) 1) in
  POST p (inr (JObject ms)) =
  match generateContent p request with
  | inl e =>
    ([GenerateContent request; ConsoleError (js "API Error:") (LoggedError e)],
     inr (error_response 500 (or_else (message e) (js "Internal Server Error"))))
  | inr None =>
    ([GenerateContent request; ConsoleError (js "JSON Parse Error:") (LoggedText None)],
     inr parse_error_response)
  | inr (Some raw) =>
    match JSON_parse (cleanJson raw) with
    | None =>
      ([GenerateContent request;
        ConsoleError (js "JSON Parse Error:") (LoggedText (Some raw))],
       inr parse_error_response)
    | Some v =>
      ([GenerateContent request], inr (results_response v))
    end
  end.
Proof.
  intros Hget Hs request.
  unfold POST, destructure_image, split_image, call_model.
  cbn [bind ret try_catch]. rewrite Hget.
  destruct s as [|c s]; [easy|]. cbn [truthy negb].
  cbn [bind ret emit]. fold request.
  destruct (generateContent p request) as [e|[raw|]]; cbn [bind ret throw try_catch emit app].
  - reflexivity.
  - rewrite parse_results_text.
    destruct (JSON_parse (cleanJson raw)); reflexivity.
  - reflexivity.
Qed.

(** C2 (as amended).  When the output text is undefined, or its cleaned text
    is not valid JSON, as for the empty string, the handler answers with the
    parse-error response: status 500 and a fixed message; the raw text goes to
    the error console and is no part of the response.  A cleaned text that is
    valid JSON is returned as the results whatever its shape. *)
Theorem unparsable_output_is_parse_error ms s (outputText : option jsstring) :
  let request := request_for (nth_error (split 44%N s) 1) in
  get (js "image") ms = Some (JString s) -> s <> [] ->
  generateContent p request = inr outputText ->
  ((outputText = None
    \/ exists raw, outputText = Some raw /\ JSON_parse (cleanJson raw) = None) ->
   POST p (inr (JObject ms)) =
   ([GenerateContent request; ConsoleError (js "JSON Parse Error:") (LoggedText outputText)],
    inr parse_error_response))
  /\ (forall raw v,
        outputText = Some raw -> JSON_parse (cleanJson raw) = Some v ->
        POST p (inr (JObject ms)) = ([GenerateContent request], inr (results_response v)))
  /\ JSON_parse (cleanJson []) = None.
Proof.
  intros request Hget Hs Hgen.
  pose proof (POST_image_string ms s Hget Hs) as E. cbv zeta in E. fold request in E.
  rewrite Hgen in E. repeat split.
  - intros [->|(raw & -> & Hraw)]; [exact E | now rewrite Hraw in E].
  - intros raw v -> Hv. now rewrite Hv in E.
Qed.

(** C8.  For a body whose [image] is a data URL, a media type and a payload
    without a comma, the handler calls the inference boundary once; the
    request carries the payload alone as inline data, the schema of an array
    of objects whose properties are the five fields of [GradingResult], all
    required, the JSON response type and the temperature 0.1. *)
Theorem request_carries_payload_and_schema ms mime payload :
  let image := js "data:" ++ mime ++ js ";base64," ++ payload in
  comma_free (mime ++ payload) = true ->
  get (js "image") ms = Some (JString image) ->
  exists request item,
    inference_calls (fst (POST p (inr (JObject ms)))) = [request]
    /\ contents request =
       [ InlineDataPart (mkInlineData (js "image/jpeg") (Some payload));
         TextPart (js "Grade this math problem. Identify lines, check correctness, and provide bounding boxes.") ]
    /\ responseSchema (config request) = gradingSchema
    /\ type gradingSchema = ARRAY
    /\ items gradingSchema = Some item
    /\ type item = OBJECT
    /\ map fst (properties item) = GradingResult_fields
    /\ required item = GradingResult_fields
    /\ responseMimeType (config request) = js "application/json"
    /\ temperature (config request) = 0.1%Q.
Proof.
  intros image Hfree Hget.
  unfold comma_free in Hfree. rewrite forallb_app in Hfree.
  apply andb_true_iff in Hfree as [Hm Hp].
  assert (Hsplit : nth_error (split 44%N image) 1 = Some payload).
  { unfold image.
    assert (S1 : forall a, forallb (fun c => negb (c =? 44)%N) a = true -> split 44%N a = [a]).
    { induction a as [|c a IH]; [reflexivity|]. cbn [forallb split].
      intros H; apply andb_true_iff in H as [Hc Ha].
      apply negb_true_iff in Hc. rewrite Hc, (IH Ha). reflexivity. }
    assert (S2 : forall a b, forallb (fun c => negb (c =? 44)%N) a = true ->
                   split 44%N (a ++ 44%N :: b) = a :: split 44%N b).
    { induction a as [|c a IH]; intros b; [reflexivity|]. cbn [forallb split app].
      intros H; apply andb_true_iff in H as [Hc Ha].
      apply negb_true_iff in Hc. rewrite Hc, (IH b Ha). reflexivity. }
    change (js ";base64," ++ payload) with (js ";base64" ++ 44%N :: payload).
    rewrite !app_assoc. rewrite S2.
    - now rewrite (S1 payload Hp).
    - rewrite !forallb_app, Hm. reflexivity. }
  pose proof (POST_image_string ms image Hget) as E.
  cbv zeta in E. rewrite Hsplit in E.
  exists (request_for (Some payload)).
  eexists. rewrite E by (unfold image; discriminate).
  split; [|repeat split; reflexivity].
  destruct (generateContent p (request_for (Some payload))) as [e|[raw|]];
    [reflexivity | | reflexivity].
  destruct (JSON_parse (cleanJson raw)); reflexivity.
Qed.

(** C9.  For a body whose [image] is a non-empty string without a comma the
    handler does not answer 400: it calls the inference boundary, once and
    with undefined inline data, and what comes of that call decides the
    answer.  When the boundary throws, the answer is 500 with the message of
    the error or Internal Server Error; when the output is undefined or does
    not parse, it is the parse error, 500; only an output that parses is
    answered 200, with the results. *)
Theorem image_without_comma_reaches_inference ms s :
  get (js "image") ms = Some (JString s) -> s <> [] -> comma_free s = true ->
  exists t resp,
    POST p (inr (JObject ms)) = (t, inr resp)
    /\ inference_calls t = [request_for None]
    /\ data_of_first_part (request_for None) = None
    /\ status resp <> 400
    /\ ((status resp = 200 /\ exists v, body resp = JObject [(js "results", v)])
        \/ (status resp = 500 /\ exists text, body resp = JObject [(js "error", JString text)]))
    /\ (forall e,
          generateContent p (request_for None) = inl e ->
          resp = error_response 500 (or_else (message e) (js "Internal Server Error")))
    /\ (generateContent p (request_for None) = inr None -> resp = parse_error_response)
    /\ (forall raw,
          generateContent p (request_for None) = inr (Some raw) ->
          JSON_parse (cleanJson raw) = None -> resp = parse_error_response)
    /\ (forall raw v,
          generateContent p (request_for None) = inr (Some raw) ->
          JSON_parse (cleanJson raw) = Some v -> resp = results_response v)
    /\ (status resp = 200 ->
        exists raw v,
          generateContent p (request_for None) = inr (Some raw)
          /\ JSON_parse (cleanJson raw) = Some v).
Proof.
  intros Hget Hs Hfree.
  assert (Hsplit : nth_error (split 44%N s) 1 = None).
  { assert (S1 : split 44%N s = [s]).
    { clear Hget Hs. induction s as [|c a IH]; [reflexivity|].
      cbn [comma_free forallb split] in *.
      apply andb_true_iff in Hfree as [Hc Ha].
      apply negb_true_iff in Hc. rewrite Hc, (IH Ha). reflexivity. }
    now rewrite S1. }
  pose proof (POST_image_string ms s Hget Hs) as E.
  cbv zeta in E. rewrite Hsplit in E. rewrite E.
  destruct (generateContent p (request_for None)) as [e|[raw|]].
  - do 2 eexists. split; [reflexivity|]. repeat split; try easy.
    + right; split; [reflexivity|]. now eexists.
    + now intros e' [= <-].
  - destruct (JSON_parse (cleanJson raw)) as [v|] eqn:Ev.
    + do 2 eexists. split; [reflexivity|]. repeat split; try easy.
      * left; split; [reflexivity|]. now eexists.
      * intros raw' [= <-]. congruence.
      * intros raw' v' [= <-]. congruence.
      * intros _. now exists raw, v.
    + do 2 eexists. split; [reflexivity|]. repeat split; try easy.
      * right; split; [reflexivity|]. now eexists.
      * intros raw' v' [= <-]. congruence.
  - do 2 eexists. split; [reflexivity|]. repeat split; try easy.
    right; split; [reflexivity|]. now eexists.
Qed.

(** The handler always answers, with one of three kinds of response. *)
Lemma POST_answers req :
  exists t resp,
    POST p req = (t, inr resp)
    /\ ((status resp = 200 /\ exists v, body resp = JObject [(js "results", v)])
        \/ (status resp = 400
            /\ body resp = JObject [(js "error", JString (js "No image data provided"))])
        \/ (status resp = 500
            /\ exists text, text <> [] /\ body resp = JObject [(js "error", JString text)])).
Proof.
  assert (Hor : forall m, or_else m (js "Internal Server Error") <> []).
  { intros [[|c m]|]; discriminate. }
  assert (Thrown : forall t e,
             exists t' resp,
               (let (t2, r) := (emit (ConsoleError (js "API Error:") (LoggedError e)) ;;;
                                ret (NextResponse_json
                                       (JObject [(js "error",
                                                  JString (or_else (message e) (js "Internal Server Error")))])
                                       (Some 500))) in (t ++ t2, r))
               = (t', inr resp)
               /\ status resp = 500
               /\ exists text, text <> [] /\ body resp = JObject [(js "error", JString text)]).
  { intros t e. do 2 eexists. cbn [bind emit ret app]. split; [reflexivity|].
    split; [reflexivity|]. eexists; split; [apply Hor | reflexivity]. }
  destruct req as [e|body0].
  - destruct (Thrown [] e) as (t' & resp & E & Hst & Htext).
    exists t', resp. split; [exact E|]. right; right; now split.
  - destruct body0 as [| b | n | str | els | ms];
      try (do 2 eexists; split; [reflexivity|]; right; left; now split).
    + destruct (Thrown [] (mkError (Some (cannot_destructure p)))) as (t' & resp & E & Hst & Htext).
      exists t', resp. split; [exact E|]. right; right; now split.
    + destruct (get (js "image") ms) as [image|] eqn:Hget.
      2:{ do 2 eexists. unfold POST, destructure_image. cbn [bind ret try_catch].
          rewrite Hget. cbn [truthy negb]. split; [reflexivity|].
          right; left; now split. }
      destruct (truthy (Some image)) eqn:Htruthy.
      2:{ do 2 eexists. unfold POST, destructure_image. cbn [bind ret try_catch].
          rewrite Hget, Htruthy. cbn [negb]. split; [reflexivity|].
          right; left; now split. }
      destruct image as [| b | n | str | els | ms'];
        try (destruct (Thrown [] (mkError (Some (not_a_function p)))) as (t' & resp & E & Hst & Htext);
             exists t', resp; unfold POST, destructure_image; cbn [bind ret try_catch];
             rewrite Hget, Htruthy; cbn [negb split_image bind throw try_catch];
             split; [exact E|]; right; right; now split).
      destruct str as [|c str]; [discriminate Htruthy|].
      rewrite (POST_image_string ms (c :: str) Hget) by discriminate.
      destruct (generateContent p _) as [e|[raw|]].
      * do 2 eexists; split; [reflexivity|]. right; right; split; [reflexivity|].
        eexists; split; [apply Hor | reflexivity].
      * destruct (JSON_parse (cleanJson raw)) as [v|].
        -- do 2 eexists; split; [reflexivity|]. left; split; [reflexivity|]. now eexists.
        -- do 2 eexists; split; [reflexivity|]. right; right; split; [reflexivity|].
           eexists; split; [|reflexivity]. discriminate.
      * do 2 eexists; split; [reflexivity|]. right; right; split; [reflexivity|].
        eexists; split; [|reflexivity]. discriminate.
Qed.


End Handler.

Lemma unparsable_output_is_parse_error_witness :
  Route.POST (answering (inr (Some []))) (inr jpeg_body)
  = ([Route.GenerateContent (Route.request_for (Some (js "AAAA")));
      Route.ConsoleError (js "JSON Parse Error:") (Route.LoggedText (Some []))],
     inr parse_error_response).
Proof.
  refine (proj1 (unparsable_output_is_parse_error (answering (inr (Some [])))
                   [(js "image", JString (js "data:image/jpeg;base64,AAAA"))]
                   (js "data:image/jpeg;base64,AAAA") (Some []) _ _ _) _).
  - reflexivity.
  - discriminate.
  - reflexivity.
  - right. exists []. split; reflexivity.
Defined.

(** C2 as stated fails: an output that parses to an object, and one that
    parses to an array of an object without the required fields, are answered
    with status 200 and the value as results, not with a parse error. *)
Lemma non_array_output_is_accepted :
  (exists v,
      JSON_parse (jsq "{'a':1}") = Some v
      /\ (forall els, v <> JArray els)
      /\ snd (Route.POST (answering (inr (Some (jsq "{'a':1}")))) (inr jpeg_body))
         = inr (results_response v))
  /\ (exists v,
        JSON_parse (jsq "[{'lineNumber':1}]") = Some v
        /\ as_GradingResponse v = None
        /\ snd (Route.POST (answering (inr (Some (jsq "[{'lineNumber':1}]")))) (inr jpeg_body))
           = inr (results_response v)).
Proof.
  split; eexists; (split; [vm_compute; reflexivity|]); split;
    try (vm_compute; reflexivity); discriminate.
Qed.



Lemma request_carries_payload_and_schema_witness :
  exists request,
    Route.inference_calls (fst (Route.POST (answering (inr (Some minimal_array))) (inr jpeg_body)))
    = [request]
    /\ data_of_first_part request = Some (js "AAAA").
Proof.
  destruct (request_carries_payload_and_schema (answering (inr (Some minimal_array)))
              [(js "image", JString (js "data:image/jpeg;base64,AAAA"))]
              (js "image/jpeg") (js "AAAA") eq_refl eq_refl)
    as (request & item & Hcalls & Hcontents & _).
  exists request. split; [exact Hcalls|].
  unfold data_of_first_part. rewrite Hcontents. reflexivity.
Defined.

Lemma image_without_comma_reaches_inference_witness :
  exists t resp,
    Route.POST (answering (inl (Route.mkError None))) (inr (JObject [(js "image", JString (js "AAAA"))]))
    = (t, inr resp)
    /\ Route.status resp <> 400
    /\ resp = error_response 500 (js "Internal Server Error").
Proof.
  destruct (image_without_comma_reaches_inference (answering (inl (Route.mkError None)))
              [(js "image", JString (js "AAAA"))] (js "AAAA")
              eq_refl ltac:(discriminate) eq_refl)
    as (t & resp & E & _ & _ & Hst & _ & Hthrow & _).
  exists t, resp. split; [exact E|]. split; [exact Hst|].
  exact (Hthrow (Route.mkError None) eq_refl).
Defined.

(** ** The image uploader and the page *)

Section Client.
Import Uploader Page.

(** [Math.round] of a quotient is the nearest integer, a tie going up. *)
Lemma Math_round_div_nearest a b :
  0 < b ->
  - b <= 2 * (a - Math_round_div a b * b) < b.
Proof.
  intros Hb. unfold Math_round_div.
  pose proof (Z.div_mod (2 * a + b) (2 * b) ltac:(lia)) as E.
  pose proof (Z.mod_pos_bound (2 * a + b) (2 * b) ltac:(lia)) as B.
  nia.
Qed.

(** A rounded quotient lies within half a unit of the exact one. *)
Lemma within_half_pixel a b r :
  0 < b -> - b <= 2 * (a - r * b) < b ->
  exists h : Q, (h * inject_Z b == inject_Z a)%Q /\ (Qabs (inject_Z r - h) <= 1 # 2)%Q.
Proof.
  intros Hb Hr. exists (a # Z.to_pos b). split.
  - unfold Qeq, Qmult, inject_Z. cbn [Qnum Qden].
    rewrite Pos.mul_1_r, Z2Pos.id by lia. ring.
  - apply Qabs_Qle_condition.
    unfold Qle, Qminus, Qplus, Qopp, inject_Z. cbn [Qnum Qden].
    rewrite !Pos.mul_1_l, Z2Pos.id by lia. split; lia.
Qed.

(** C3.  An image no larger than 1024 in both dimensions keeps its size.
    Otherwise the larger dimension becomes 1024 (the height when they are
    equal) and the other is the product of its source value and 1024 over the
    larger source dimension, rounded to the nearest integer; so the larger of
    the new dimensions is 1024, and the rounded dimension lies within half a
    pixel of the value [h] that keeps the aspect ratio exactly
    ([W' / h = W / H], respectively [h / H' = W / H]).  [resize] is a function
    of the source size alone. *)
Theorem resize_bounded_and_proportional (W H : Z) :
  let W' := fst (resize W H) in
  let H' := snd (resize W H) in
  (Z.max W H <= 1024 -> resize W H = (W, H))
  /\ (1024 < Z.max W H ->
      Z.max W' H' = 1024
      /\ (H < W ->
          W' = 1024 /\ H' = Math_round_div (H * 1024) W
          /\ - W <= 2 * (H * W' - H' * W) < W
          /\ exists h : Q,
               (h * inject_Z W == inject_Z H * inject_Z W')%Q
               /\ (Qabs (inject_Z H' - h) <= 1 # 2)%Q)
      /\ (W <= H ->
          H' = 1024 /\ W' = Math_round_div (W * 1024) H
          /\ - H <= 2 * (W * H' - W' * H) < H
          /\ exists h : Q,
               (h * inject_Z H == inject_Z W * inject_Z H')%Q
               /\ (Qabs (inject_Z W' - h) <= 1 # 2)%Q))
  /\ (forall W2 H2, W2 = W -> H2 = H -> resize W2 H2 = resize W H).
Proof.
  cbv zeta. unfold resize, MAX_WIDTH.
  split; [|split].
  - intros Hmax.
    destruct (Z.ltb_spec H W); destruct (Z.ltb_spec 1024 W);
      destruct (Z.ltb_spec 1024 H); try reflexivity; lia.
  - intros Hmax.
    destruct (Z.ltb_spec H W) as [HW|HW].
    + destruct (Z.ltb_spec 1024 W) as [Hbig|]; [|lia]. cbn [fst snd].
      pose proof (Math_round_div_nearest (H * 1024) W ltac:(lia)) as N.
      split; [|split]; [nia | | lia].
      intros _. split; [reflexivity|]. split; [reflexivity|]. split; [lia|].
      destruct (within_half_pixel (H * 1024) W _ ltac:(lia) N) as (h & E & B).
      exists h. split; [|exact B]. now rewrite E, inject_Z_mult.
    + destruct (Z.ltb_spec 1024 H) as [Hbig|]; [|lia]. cbn [fst snd].
      pose proof (Math_round_div_nearest (W * 1024) H ltac:(lia)) as N.
      split; [|split]; [nia | lia |].
      intros _. split; [reflexivity|]. split; [reflexivity|]. split; [lia|].
      destruct (within_half_pixel (W * 1024) H _ ltac:(lia) N) as (h & E & B).
      exists h. split; [|exact B]. now rewrite E, inject_Z_mult.
  - now intros W2 H2 -> ->.
Qed.

Lemma resize_bounded_and_proportional_witness :
  resize 800 600 = (800, 600)
  /\ Z.max (fst (resize 3000 2000)) (snd (resize 3000 2000)) = 1024.
Proof.
  split.
  - apply (proj1 (resize_bounded_and_proportional 800 600)). vm_compute. discriminate.
  - exact (proj1 (proj1 (proj2 (resize_bounded_and_proportional 3000 2000)) eq_refl)).
Defined.

Lemma In_Zrange lo n x : lo <= x < lo + Z.of_nat n -> In x (Zrange lo n).
Proof.
  intros Hx. unfold Zrange. apply in_map_iff.
  exists (Z.to_nat (x - lo)). split; [lia|]. apply in_seq. lia.
Qed.

Lemma tenths_on_scale n :
  - 1000 <= n <= 1000 ->
  exists q, percentage (tenths n ++ js "%") = Some q /\ (q == n # 10)%Q.
Proof.
  intros Hn.
  assert (All : forallb tenths_reads_back (Zrange (- 1000) 2001) = true)
    by (vm_compute; reflexivity).
  assert (Hin : In n (Zrange (- 1000) 2001)).
  { apply In_Zrange. change (Z.of_nat 2001) with 2001. lia. }
  pose proof (proj1 (forallb_forall _ _) All n Hin) as Hq.
  unfold tenths_reads_back in Hq.
  destruct (percentage (tenths n ++ js "%")) as [q|]; [|discriminate].
  exists q. split; [reflexivity|]. now apply Qeq_bool_iff.
Qed.

(** C4.  For a box on the 0-1000 scale the four texts of the style are
    percentages whose values are [ymin / 10], [xmin / 10], [(ymax - ymin) / 10]
    and [(xmax - xmin) / 10]; the full box gives 0%, 0%, 100%, 100% and the box
    (500, 500, 600, 600) gives 50%, 50%, 10%, 10%. *)
Theorem getBoxStyle_percentages (ymin xmin ymax xmax : Z) :
  0 <= ymin <= 1000 -> 0 <= xmin <= 1000 ->
  0 <= ymax <= 1000 -> 0 <= xmax <= 1000 ->
  let style := getBoxStyle (ymin, xmin, ymax, xmax) in
  (exists t l h w,
      percentage (top style) = Some t /\ (t == ymin # 10)%Q
      /\ percentage (left style) = Some l /\ (l == xmin # 10)%Q
      /\ percentage (height style) = Some h /\ (h == (ymax - ymin) # 10)%Q
      /\ percentage (width style) = Some w /\ (w == (xmax - xmin) # 10)%Q)
  /\ getBoxStyle (0, 0, 1000, 1000)
     = mkBoxStyle (js "0%") (js "0%") (js "100%") (js "100%")
  /\ getBoxStyle (500, 500, 600, 600)
     = mkBoxStyle (js "50%") (js "50%") (js "10%") (js "10%").
Proof.
  intros H1 H2 H3 H4 style. split; [|split; reflexivity].
  destruct (tenths_on_scale ymin ltac:(lia)) as (t & Et & Qt).
  destruct (tenths_on_scale xmin ltac:(lia)) as (l & El & Ql).
  destruct (tenths_on_scale (ymax - ymin) ltac:(lia)) as (h & Eh & Qh).
  destruct (tenths_on_scale (xmax - xmin) ltac:(lia)) as (w & Ew & Qw).
  exists t, l, h, w. unfold style, getBoxStyle. cbn [top left height width].
  repeat split; assumption.
Qed.

Lemma getBoxStyle_percentages_witness :
  exists t, percentage (top (getBoxStyle (123, 40, 456, 990))) = Some t /\ (t == 123 # 10)%Q.
Proof.
  destruct (proj1 (getBoxStyle_percentages 123 40 456 990
                     ltac:(lia) ltac:(lia) ltac:(lia) ltac:(lia)))
    as (t & l & h & w & Et & Qt & _).
  exists t. now split.
Defined.

Variable b : Browser.
Variable en : Engine.
Variable p : Route.Platform.

(** C5.  For a file of an image type that the browser reads and decodes, and
    a canvas context at hand, whatever the type and the size: the canvas is
    encoded once, as image/jpeg at quality 0.8, and the one resulting text is
    passed as both arguments of the callback; the page shows it as the image
    and sends it as the [image] of the request. *)
Theorem one_jpeg_payload_for_transport_and_display file files src W H :
  let canvas := mkCanvas (fst (resize W H)) (snd (resize W H)) in
  let payload := toDataURL b src canvas (js "image/jpeg") QUALITY in
  let encoded := [SetIsProcessing true;
                  DrawImage src 0 0 (Uploader.width canvas) (Uploader.height canvas);
                  ToDataURL canvas (js "image/jpeg") QUALITY] in
  startsWith (js "image/") (Uploader.type file) = true ->
  readAsDataURL b file = Some src ->
  decode b src = Some (W, H) ->
  getContext_2d b canvas = true ->
  (forall onImageProcessed,
      handleFileChange b onImageProcessed (file :: files)
      = encoded ++ onImageProcessed payload payload ++ [SetIsProcessing false])
  /\ (exists rest,
        submit b en p (file :: files)
        = encoded
          ++ [SetImageSrc (Some payload); SetResults None; SetError None;
              SetIsLoading true;
              Fetch (js "/api/grade") (js "POST") (JObject [(js "image", JString payload)])]
          ++ rest)
  /\ QUALITY = 0.8%Q.
Proof.
  intros canvas payload encoded Htype Hread Hdecode Hctx.
  assert (Hcb : forall cb, handleFileChange b cb (file :: files)
                           = encoded ++ cb payload payload ++ [SetIsProcessing false]).
  { intros cb. unfold handleFileChange. rewrite Htype, Hread, Hdecode. cbn [negb].
    destruct (resize W H) as [w h] eqn:E. cbn [fst snd] in *.
    fold canvas. rewrite Hctx. reflexivity. }
  split; [exact Hcb|]. split; [|reflexivity].
  unfold submit. rewrite Hcb. unfold handleImageProcessed, gradeImage.
  destruct (served_by p (JObject [(js "image", JString payload)])) as [served outcome].
  eexists. cbn [app]. reflexivity.
Qed.

(** C7.  A file whose declared type does not begin with image/ is turned
    away with the alert alone: nothing is read, decoded or sent, and the
    submission makes no call of the inference boundary. *)
Theorem non_image_file_is_rejected file files :
  startsWith (js "image/") (Uploader.type file) = false ->
  submit b en p (file :: files) = [Alert (js "Please select a valid image file")]
  /\ boundary_calls (submit b en p (file :: files)) = []
  /\ List.length (boundary_calls (submit b en p (file :: files))) = 0%nat.
Proof.
  intros Htype.
  assert (E : submit b en p (file :: files) = [Alert (js "Please select a valid image file")]).
  { unfold submit, handleFileChange. now rewrite Htype. }
  rewrite E. repeat split.
Qed.

End Client.

Lemma one_jpeg_payload_for_transport_and_display_witness :
  exists rest,
    Page.submit sample_browser sample_engine (answering (inr (Some minimal_array))) [png_file]
    = [Uploader.SetIsProcessing true;
       Uploader.DrawImage (js "data:image/png;base64,iVBORw0KGgo=") 0 0 1024 683;
       Uploader.ToDataURL (Uploader.mkCanvas 1024 683) (js "image/jpeg") 0.8%Q;
       Uploader.SetImageSrc (Some (js "data:image/jpeg;base64,AAAA"));
       Uploader.SetResults None; Uploader.SetError None; Uploader.SetIsLoading true;
       Uploader.Fetch (js "/api/grade") (js "POST")
         (JObject [(js "image", JString (js "data:image/jpeg;base64,AAAA"))])]
      ++ rest.
Proof.
  exact (proj1 (proj2 (one_jpeg_payload_for_transport_and_display
                         sample_browser sample_engine (answering (inr (Some minimal_array)))
                         png_file [] (js "data:image/png;base64,iVBORw0KGgo=") 3000 2000
                         eq_refl eq_refl eq_refl eq_refl))).
Defined.

Lemma non_image_file_is_rejected_witness :
  Page.boundary_calls
    (Page.submit sample_browser sample_engine (answering (inr (Some minimal_array))) [pdf_file])
  = [].
Proof.
  exact (proj1 (proj2 (non_image_file_is_rejected
                         sample_browser sample_engine (answering (inr (Some minimal_array)))
                         pdf_file [] eq_refl))).
Defined.

(** * Further properties of the code *)

(** ** The handler: what it calls and what it logs *)

Section HandlerFurther.
Import Route.

Variable p : Platform.

Lemma split_comma_free a : comma_free a = true -> split 44%N a = [a].
Proof.
  unfold comma_free. induction a as [|c a IH]; [reflexivity|]. cbn [forallb split].
  intros H; apply andb_true_iff in H as [Hc Ha].
  apply negb_true_iff in Hc. rewrite Hc, (IH Ha). reflexivity.
Qed.

Lemma split_at_comma a b :
  comma_free a = true -> split 44%N (a ++ 44%N :: b) = a :: split 44%N b.
Proof.
  unfold comma_free. induction a as [|c a IH]; [reflexivity|]. cbn [forallb split app].
  intros H; apply andb_true_iff in H as [Hc Ha].
  apply negb_true_iff in Hc. rewrite Hc, (IH Ha). reflexivity.
Qed.

(** A request without a non-empty string for its image is answered 400, or
    its error is caught; the boundary is not called. *)
Lemma POST_without_image_string req :
  image_string req = None ->
  POST p req = ([], inr (error_response 400 (js "No image data provided")))
  \/ exists e, POST p req = caught_by_handler e.
Proof.
  intros Himg. destruct req as [e|body0].
  { right. now exists e. }
  destruct body0 as [| b | n | str | els | ms]; try (left; reflexivity).
  { right. now eexists. }
  cbn [image_string] in Himg.
  unfold POST, destructure_image. cbn [bind ret try_catch].
  destruct (get (js "image") ms) as [image|]; [|left; reflexivity].
  destruct (truthy (Some image)) eqn:Htruthy; [|left; reflexivity].
  right. cbn [negb].
  destruct image as [| b | n | [|c str] | els | ms']; try discriminate;
    eexists; reflexivity.
Qed.

(** X1.  A body whose [image] is truthy but no string (a number other than
    zero, true, an array, an object) is not rejected as missing input: the
    call of [split] throws, the answer is 500 with the message of that error,
    and the inference boundary is not called. *)
Theorem truthy_non_string_image_is_a_500 ms v :
  get (js "image") ms = Some v -> truthy (Some v) = true ->
  (forall s, v <> JString s) ->
  POST p (inr (JObject ms))
  = caught_by_handler (mkError (Some (not_a_function p)))
  /\ inference_calls (fst (POST p (inr (JObject ms)))) = [].
Proof.
  intros Hget Htruthy Hv.
  assert (E : POST p (inr (JObject ms)) = caught_by_handler (mkError (Some (not_a_function p)))).
  { unfold POST, destructure_image. cbn [bind ret try_catch].
    rewrite Hget, Htruthy. cbn [negb].
    destruct v as [| b | n | str | els | ms']; try reflexivity; try discriminate.
    now destruct (Hv str). }
  now rewrite E.
Qed.

(** The calls of the boundary, by the request. *)
Lemma POST_inference_calls req :
  inference_calls (fst (POST p req))
  = match image_string req with
    | Some s => [request_for (nth_error (split 44%N s) 1)]
    | None => []
    end.
Proof.
  destruct (image_string req) as [s|] eqn:Himg.
  - destruct req as [e|[| b | n | str | els | ms]]; try discriminate Himg.
    cbn [image_string] in Himg.
    destruct (get (js "image") ms) as [[| b | n | [|c str] | els | ms']|] eqn:Hget;
      try discriminate Himg.
    injection Himg as <-.
    rewrite (POST_image_string p ms (c :: str) Hget) by discriminate.
    destruct (generateContent p _) as [e|[raw|]]; [reflexivity | | reflexivity].
    destruct (JSON_parse (cleanJson raw)); reflexivity.
  - destruct (POST_without_image_string req Himg) as [E|[e E]]; now rewrite E.
Qed.

(** X2.  The handler calls the inference boundary at most once, and it does
    so exactly when the body is an object whose [image] is a non-empty
    string; the inline data of that call is the second piece of the string
    split at its commas. *)
Theorem one_inference_call_per_image_string req :
  inference_calls (fst (POST p req))
  = match image_string req with
    | Some s => [request_for (nth_error (split 44%N s) 1)]
    | None => []
    end
  /\ (List.length (inference_calls (fst (POST p req))) <= 1)%nat.
Proof.
  rewrite POST_inference_calls. split; [reflexivity|].
  destruct (image_string req); simpl; lia.
Qed.

(** X3.  The handler writes one line to the error console when it answers
    500 and none otherwise. *)
Theorem console_line_exactly_for_500 req :
  exists t resp,
    POST p req = (t, inr resp)
    /\ console_lines t = if status resp =? 500 then 1%nat else 0%nat.
Proof.
  destruct (image_string req) as [s|] eqn:Himg.
  - destruct req as [e|[| b | n | str | els | ms]]; try discriminate Himg.
    cbn [image_string] in Himg.
    destruct (get (js "image") ms) as [[| b | n | [|c str] | els | ms']|] eqn:Hget;
      try discriminate Himg.
    rewrite (POST_image_string p ms (c :: str) Hget) by discriminate.
    destruct (generateContent p _) as [e|[raw|]]; [now do 2 eexists | | now do 2 eexists].
    destruct (JSON_parse (cleanJson raw)); now do 2 eexists.
  - destruct (POST_without_image_string req Himg) as [E|[e E]]; rewrite E;
      now do 2 eexists.
Qed.

(** X4.  Of an [image] with more than one comma only the piece between the
    first two reaches the inference boundary: what follows the second comma
    is dropped. *)
Theorem payload_is_cut_at_second_comma ms a b c :
  comma_free a = true -> comma_free b = true ->
  get (js "image") ms = Some (JString (a ++ 44%N :: b ++ 44%N :: c)) ->
  inference_calls (fst (POST p (inr (JObject ms)))) = [request_for (Some b)].
Proof.
  intros Ha Hb Hget.
  assert (Hne : a ++ 44%N :: b ++ 44%N :: c <> []) by (destruct a; discriminate).
  rewrite (POST_image_string p ms _ Hget Hne).
  rewrite (split_at_comma a _ Ha), (split_at_comma b _ Hb). cbn [nth_error].
  destruct (generateContent p _) as [e|[raw|]]; [reflexivity | | reflexivity].
  destruct (JSON_parse (cleanJson raw)); reflexivity.
Qed.

End HandlerFurther.

(** ** The cleanup of the model output *)

Section CleanupFurther.
Import Route.

Lemma removeAll_no_fence p s :
  startsWith fence p = true -> includes fence s = false -> removeAll p s = s.
Proof.
  intros Hp. induction s as [|c s IH]; [reflexivity|].
  rewrite includes_cons. intros H; apply orb_false_iff in H as [H1 H2].
  rewrite removeAll_cons.
  destruct (startsWith p (c :: s)) eqn:E.
  - now rewrite (startsWith_trans _ _ _ Hp E) in H1.
  - now rewrite (IH H2).
Qed.

Lemma trimStart_idempotent s : trimStart (trimStart s) = trimStart s.
Proof.
  induction s as [|c s IH]; [reflexivity|].
  simpl. destruct (isWhiteSpace c) eqn:E; [exact IH|]. simpl. now rewrite E.
Qed.

Lemma trimStart_length s : (List.length (trimStart s) <= List.length s)%nat.
Proof.
  induction s as [|c s IH]; [reflexivity|].
  simpl. destruct (isWhiteSpace c); simpl; lia.
Qed.

(** A string that [trimStart] leaves alone is empty or begins with a code
    unit that is no whitespace. *)
Lemma trimStart_fixed s :
  trimStart s = s ->
  s = [] \/ exists c s', s = c :: s' /\ isWhiteSpace c = false.
Proof.
  intros H. destruct s as [|c s]; [now left|]. right. exists c, s. split; [reflexivity|].
  simpl in H. destruct (isWhiteSpace c); [|reflexivity].
  pose proof (trimStart_length s) as L. rewrite H in L. simpl in L. lia.
Qed.

Lemma trimStart_snoc s c :
  isWhiteSpace c = false -> trimStart (s ++ [c]) = trimStart s ++ [c].
Proof.
  intros Hc. induction s as [|d s IH]; simpl; [now rewrite Hc|].
  destruct (isWhiteSpace d); [exact IH | reflexivity].
Qed.

Lemma trimStart_trimEnd u : trimStart u = u -> trimStart (trimEnd u) = trimEnd u.
Proof.
  intros H. destruct (trimStart_fixed u H) as [->|(c & u' & -> & Hc)]; [reflexivity|].
  unfold trimEnd. cbn [rev]. rewrite (trimStart_snoc _ _ Hc), rev_app_distr.
  cbn [rev app trimStart]. now rewrite Hc.
Qed.

Lemma trim_idempotent s : trim (trim s) = trim s.
Proof.
  unfold trim.
  rewrite trimStart_trimEnd by apply trimStart_idempotent.
  unfold trimEnd. now rewrite rev_involutive, trimStart_idempotent.
Qed.

(** X5.  The cleanup is idempotent: cleaning a cleaned text changes
    nothing. *)
Theorem cleanJson_idempotent raw : cleanJson (cleanJson raw) = cleanJson raw.
Proof.
  pose proof (cleanJson_no_fence raw) as H.
  unfold cleanJson at 1.
  change (js "```json") with fence_json; change (js "```") with fence.
  rewrite (removeAll_no_fence fence_json) by (reflexivity || exact H).
  rewrite (removeAll_no_fence fence) by (reflexivity || exact H).
  unfold cleanJson. apply trim_idempotent.
Qed.

(** X6.  On an output without a triple backtick the cleanup does nothing but
    trim: whatever JSON the text holds reaches [JSON.parse] unaltered. *)
Theorem cleanJson_trims_fence_free_output raw :
  includes fence raw = false ->
  cleanJson raw = trim raw
  /\ parse_results (Some raw)
     = match JSON_parse (trim raw) with
       | Some v => ([], inr (inr v))
       | None =>
         ([ConsoleError (js "JSON Parse Error:") (LoggedText (Some raw))],
          inr (inl parse_error_response))
       end.
Proof.
  intros H.
  assert (E : cleanJson raw = trim raw).
  { unfold cleanJson.
    change (js "```json") with fence_json; change (js "```") with fence.
    rewrite (removeAll_no_fence fence_json) by (reflexivity || exact H).
    now rewrite (removeAll_no_fence fence) by (reflexivity || exact H). }
  split; [exact E|]. now rewrite parse_results_text, E.
Qed.

End CleanupFurther.

Lemma cleanJson_trims_fence_free_output_witness :
  Route.cleanJson ([32%N; 10%N] ++ minimal_array ++ [10%N]) = minimal_array.
Proof.
  rewrite (proj1 (cleanJson_trims_fence_free_output
                    ([32%N; 10%N] ++ minimal_array ++ [10%N]) eq_refl)).
  reflexivity.
Defined.

(** ** The resize logic *)

Section ResizeFurther.
Import Uploader.

(** X7.  The resize logic never enlarges an image: for a source size that is
    not negative each new dimension lies between 0 and the source dimension,
    and is at most 1024. *)
Theorem resize_never_enlarges (W H : Z) :
  0 <= W -> 0 <= H ->
  0 <= fst (resize W H) <= Z.min W 1024
  /\ 0 <= snd (resize W H) <= Z.min H 1024.
Proof.
  intros HW HH. unfold resize, MAX_WIDTH.
  destruct (Z.ltb_spec H W).
  - destruct (Z.ltb_spec 1024 W); cbn [fst snd]; [|lia].
    pose proof (Math_round_div_nearest (H * 1024) W ltac:(lia)) as N.
    split; [lia|]. split; [nia|]. apply Z.min_glb; nia.
  - destruct (Z.ltb_spec 1024 H); cbn [fst snd]; [|lia].
    pose proof (Math_round_div_nearest (W * 1024) H ltac:(lia)) as N.
    split; [|lia]. split; [nia|]. apply Z.min_glb; nia.
Qed.

Lemma resize_never_enlarges_witness :
  0 <= snd (resize 4096 1) <= Z.min 1 1024.
Proof. exact (proj2 (resize_never_enlarges 4096 1 ltac:(lia) ltac:(lia))). Defined.

Lemma resize_within_bound (W H : Z) :
  fst (resize W H) <= 1024 /\ snd (resize W H) <= 1024.
Proof.
  unfold resize, MAX_WIDTH.
  destruct (Z.ltb_spec H W).
  - destruct (Z.ltb_spec 1024 W); cbn [fst snd]; [|lia].
    pose proof (Math_round_div_nearest (H * 1024) W ltac:(lia)) as N. nia.
  - destruct (Z.ltb_spec 1024 H); cbn [fst snd]; [|lia].
    pose proof (Math_round_div_nearest (W * 1024) H ltac:(lia)) as N. nia.
Qed.

(** X8.  Resizing is idempotent: the size it yields is a size it leaves
    unchanged, so an image that went through the uploader once keeps its
    dimensions when uploaded again. *)
Theorem resize_idempotent (W H : Z) :
  resize (fst (resize W H)) (snd (resize W H)) = resize W H.
Proof.
  destruct (resize_within_bound W H) as [B1 B2].
  destruct (resize W H) as [W' H']. cbn [fst snd] in *.
  unfold resize, MAX_WIDTH.
  destruct (Z.ltb_spec H' W'); destruct (Z.ltb_spec 1024 W');
    destruct (Z.ltb_spec 1024 H'); try reflexivity; lia.
Qed.

(** X9.  Transposing the source transposes the result: a portrait image is
    resized as the landscape image of the same sides, with width and height
    swapped. *)
Theorem resize_transposed (W H : Z) :
  resize H W = (snd (resize W H), fst (resize W H)).
Proof.
  unfold resize, MAX_WIDTH.
  destruct (Z.ltb_spec H W); destruct (Z.ltb_spec W H); try lia.
  - destruct (Z.ltb_spec 1024 W); reflexivity.
  - destruct (Z.ltb_spec 1024 H); reflexivity.
  - assert (W = H) by lia. subst W.
    destruct (Z.ltb_spec 1024 H); cbn [fst snd]; [|reflexivity].
    pose proof (Math_round_div_nearest (H * 1024) H ltac:(lia)) as N.
    f_equal; nia.
Qed.

(** X10.  The shorter side of a resized image drops to 0 exactly when the
    longer source side is more than 2048 times the shorter one; otherwise an
    image of positive size keeps a positive size. *)
Theorem resize_zero_side (W H : Z) :
  0 <= H -> H < W -> 1024 < W ->
  (snd (resize W H) = 0 <-> 2048 * H < W)
  /\ (W <= 2048 * H -> 1 <= snd (resize W H)).
Proof.
  intros HH HW Hbig. unfold resize, MAX_WIDTH.
  destruct (Z.ltb_spec H W); [|lia]. destruct (Z.ltb_spec 1024 W); [|lia].
  cbn [fst snd].
  pose proof (Math_round_div_nearest (H * 1024) W ltac:(lia)) as N.
  split; [split|]; intros; nia.
Qed.

Lemma resize_zero_side_witness : snd (resize 4096 1) = 0.
Proof.
  apply (proj1 (resize_zero_side 4096 1 ltac:(lia) ltac:(lia) ltac:(lia))). lia.
Defined.

End ResizeFurther.

(** ** The uploader, the page and the handler together *)

Section PipelineFurther.
Import Uploader Page Home.

Variable b : Browser.
Variable en : Engine.
Variable p : Route.Platform.

(** X11.  The uploader fails silently.  When the file cannot be read or the
    image cannot be decoded, the callback is never called, nothing is shown
    to the user and [isProcessing] stays true, so the upload button stays
    disabled.  When there is no canvas context, the callback is not called
    either and [isProcessing] goes back to false. *)
Theorem uploader_fails_silently onImageProcessed file files :
  startsWith (js "image/") (Uploader.type file) = true ->
  ((readAsDataURL b file = None
    \/ exists src, readAsDataURL b file = Some src /\ decode b src = None) ->
   handleFileChange b onImageProcessed (file :: files) = [SetIsProcessing true]
   /\ forall isLoading,
        button_disabled isLoading
          (isProcessing_after false (handleFileChange b onImageProcessed (file :: files)))
        = true)
  /\ (forall src W H,
        readAsDataURL b file = Some src -> decode b src = Some (W, H) ->
        getContext_2d b (mkCanvas (fst (resize W H)) (snd (resize W H))) = false ->
        handleFileChange b onImageProcessed (file :: files)
        = [SetIsProcessing true; SetIsProcessing false]).
Proof.
  intros Htype. split.
  - intros Hfail.
    assert (E : handleFileChange b onImageProcessed (file :: files) = [SetIsProcessing true]).
    { unfold handleFileChange. rewrite Htype. cbn [negb].
      destruct Hfail as [->|(src & -> & ->)]; reflexivity. }
    rewrite E. split; [reflexivity|]. intros isLoading. apply orb_true_r.
  - intros src W H Hread Hdecode Hctx.
    unfold handleFileChange. rewrite Htype, Hread, Hdecode. cbn [negb].
    destruct (resize W H) as [w h]. cbn [fst snd] in Hctx. now rewrite Hctx.
Qed.

Lemma boundary_calls_app t1 t2 :
  boundary_calls (t1 ++ t2) = boundary_calls t1 ++ boundary_calls t2.
Proof.
  induction t1 as [|ev t1 IH]; [reflexivity|].
  destruct ev as [| | | | | | | | |[|]]; cbn [app boundary_calls]; rewrite ?IH; reflexivity.
Qed.

Lemma boundary_calls_served t :
  boundary_calls (map ServerSide t) = Route.inference_calls t.
Proof.
  induction t as [|[|] t IH]; cbn [map boundary_calls Route.inference_calls];
    rewrite ?IH; reflexivity.
Qed.

(** The shape of every run of [gradeImage]: loading on, the request, what the
    server did, one report, loading off. *)
Lemma gradeImage_shape fetch base64Image :
  exists ev,
    gradeImage en fetch base64Image
    = [SetIsLoading true;
       Fetch (js "/api/grade") (js "POST") (JObject [(js "image", JString base64Image)])]
      ++ map ServerSide (fst (fetch (JObject [(js "image", JString base64Image)])))
      ++ [ev; SetIsLoading false]
    /\ reports ev.
Proof.
  assert (Hor : forall m, exists c text,
               Route.or_else m (js "Something went wrong") = c :: text).
  { intros [[|c m]|]; now do 2 eexists. }
  assert (Caught : forall err,
             reports (SetError (Some (Route.or_else (Route.message err)
                                        (js "Something went wrong"))))).
  { intros err. right. destruct (Hor (Route.message err)) as (c & text & ->).
    now exists c, text. }
  unfold gradeImage.
  destruct (fetch (JObject [(js "image", JString base64Image)])) as [served outcome].
  cbn [fst].
  destruct outcome as [err|response].
  { eexists. split; [reflexivity|]. apply Caught. }
  destruct (negb (ok response)).
  - destruct (read en (Route.body response) "error") as [err|e].
    + eexists. split; [reflexivity|]. apply Caught.
    + eexists. split; [reflexivity|]. apply Caught.
  - destruct (read en (Route.body response) "results") as [err|r].
    + eexists. split; [reflexivity|]. apply Caught.
    + eexists. split; [reflexivity|]. left. now exists r.
Qed.

(** X12.  Whatever [fetch] does, [gradeImage] switches loading on first and
    off last and reports exactly once in between, with the results or with an
    error text, and an error text is never empty. *)
Theorem gradeImage_reports_once fetch base64Image :
  exists ev,
    gradeImage en fetch base64Image
    = [SetIsLoading true;
       Fetch (js "/api/grade") (js "POST") (JObject [(js "image", JString base64Image)])]
      ++ map ServerSide (fst (fetch (JObject [(js "image", JString base64Image)])))
      ++ [ev; SetIsLoading false]
    /\ reports ev
    /\ isLoading (run initial (gradeImage en fetch base64Image)) = false.
Proof.
  destruct (gradeImage_shape fetch base64Image) as (ev & E & Hev).
  exists ev. split; [exact E|]. split; [exact Hev|].
  rewrite E. unfold run. rewrite !fold_left_app. reflexivity.
Qed.

(** What the page reports for a request the handler serves. *)
Lemma gradeImage_served base64Image :
  exists t resp ev,
    Route.POST p (inr (JObject [(js "image", JString base64Image)])) = (t, inr resp)
    /\ gradeImage en (served_by p) base64Image
       = [SetIsLoading true;
          Fetch (js "/api/grade") (js "POST") (JObject [(js "image", JString base64Image)])]
         ++ map ServerSide t ++ [ev; SetIsLoading false]
    /\ ((Route.status resp = 200
         /\ exists v, Route.body resp = JObject [(js "results", v)]
                      /\ ev = SetResults (Some v))
        \/ (Route.status resp <> 200
            /\ exists c text, Route.body resp = JObject [(js "error", JString (c :: text))]
                              /\ ev = SetError (Some (c :: text)))).
Proof.
  destruct (POST_answers p (inr (JObject [(js "image", JString base64Image)])))
    as (t & resp & E & Hshape).
  exists t, resp.
  unfold gradeImage, served_by. rewrite E.
  destruct resp as [st bd]. cbn [Route.status Route.body] in *.
  destruct Hshape as [(-> & v & ->)|[(-> & ->)|(-> & text & Htext & ->)]].
  - eexists. split; [reflexivity|]. split; [reflexivity|].
    left. split; [reflexivity|]. now exists v.
  - eexists. split; [reflexivity|]. split; [reflexivity|].
    right. split; [discriminate|]. now do 2 eexists.
  - destruct text as [|c text]; [easy|].
    eexists. split; [reflexivity|]. split; [reflexivity|].
    right. split; [discriminate|]. now exists c, text.
Qed.

(** X13.  For a request the handler serves, the page shows what the handler
    sent: the results of a 200 answer, and for every other answer exactly the
    error text of the body.  The page never puts one of its own fallback
    texts, Failed to grade image and Something went wrong, in the place of an
    answer of this handler. *)
Theorem page_shows_what_the_handler_sent base64Image :
  exists t resp ev,
    Route.POST p (inr (JObject [(js "image", JString base64Image)])) = (t, inr resp)
    /\ gradeImage en (served_by p) base64Image
       = [SetIsLoading true;
          Fetch (js "/api/grade") (js "POST") (JObject [(js "image", JString base64Image)])]
         ++ map ServerSide t ++ [ev; SetIsLoading false]
    /\ ((Route.status resp = 200
         /\ exists v, Route.body resp = JObject [(js "results", v)]
                      /\ ev = SetResults (Some v))
        \/ (Route.status resp <> 200
            /\ exists c text, Route.body resp = JObject [(js "error", JString (c :: text))]
                              /\ ev = SetError (Some (c :: text)))).
Proof. exact (gradeImage_served base64Image). Qed.

(** The traces of a submission: nothing, the alert, one of the two silent
    failures, or the full run from the encoding to the report. *)
Lemma submit_cases files :
  submit b en p files = []
  \/ submit b en p files = [Alert (js "Please select a valid image file")]
  \/ submit b en p files = [SetIsProcessing true]
  \/ submit b en p files = [SetIsProcessing true; SetIsProcessing false]
  \/ exists src canvas t resp ev,
       let payload := toDataURL b src canvas (js "image/jpeg") QUALITY in
       Uploader.width canvas <= 1024 /\ Uploader.height canvas <= 1024
       /\ Route.POST p (inr (JObject [(js "image", JString payload)])) = (t, inr resp)
       /\ ((exists v, ev = SetResults (Some v))
           \/ (exists c text, ev = SetError (Some (c :: text))))
       /\ submit b en p files
          = [SetIsProcessing true;
             DrawImage src 0 0 (Uploader.width canvas) (Uploader.height canvas);
             ToDataURL canvas (js "image/jpeg") QUALITY;
             SetImageSrc (Some payload); SetResults None; SetError None;
             SetIsLoading true;
             Fetch (js "/api/grade") (js "POST") (JObject [(js "image", JString payload)])]
            ++ map ServerSide t
            ++ [ev; SetIsLoading false; SetIsProcessing false].
Proof.
  unfold submit, handleFileChange.
  destruct files as [|file files]; [now left|].
  destruct (startsWith (js "image/") (Uploader.type file)); cbn [negb];
    [|right; now left].
  destruct (readAsDataURL b file) as [src|]; [|do 2 right; now left].
  destruct (decode b src) as [[W H]|]; [|do 2 right; now left].
  destruct (resize_within_bound W H) as [B1 B2].
  destruct (resize W H) as [w h]. cbn [fst snd] in *.
  destruct (getContext_2d b (mkCanvas w h)); [|do 3 right; now left].
  do 4 right.
  destruct (gradeImage_served (toDataURL b src (mkCanvas w h) (js "image/jpeg") QUALITY))
    as (t & resp & ev & E & G & Hev).
  exists src, (mkCanvas w h), t, resp, ev. cbv zeta. cbn [Uploader.width Uploader.height].
  split; [exact B1|]. split; [exact B2|]. split; [exact E|]. split.
  - destruct Hev as [(_ & v & _ & ->)|(_ & c & text & _ & ->)];
      [left; now exists v | right; now exists c, text].
  - unfold handleImageProcessed. rewrite G. cbn [app]. rewrite <- !app_assoc. reflexivity.
Qed.

(** X14.  One upload leads to at most one call of the inference boundary:
    nothing in the pipeline calls it a second time. *)
Theorem one_upload_at_most_one_call files :
  (List.length (boundary_calls (submit b en p files)) <= 1)%nat.
Proof.
  destruct (submit_cases files)
    as [E|[E|[E|[E|(src & canvas & t & resp & ev & _ & _ & HP & Hev & E)]]]];
    rewrite E; try (simpl; lia).
  rewrite !boundary_calls_app, boundary_calls_served.
  pose proof (POST_inference_calls p
                (inr (JObject [(js "image",
                                JString (toDataURL b src canvas (js "image/jpeg") QUALITY))])))
    as C.
  rewrite HP in C. cbn [fst] in C. rewrite C.
  destruct Hev as [(v & ->)|(c & text & ->)];
    destruct (image_string _); simpl; lia.
Qed.

(** X15.  Every encoding a submission asks of the canvas is a JPEG encoding
    at quality 0.8 of a canvas no larger than 1024 by 1024. *)
Theorem every_encoding_is_bounded_jpeg files canvas type quality :
  In (ToDataURL canvas type quality) (submit b en p files) ->
  type = js "image/jpeg" /\ quality = QUALITY
  /\ Uploader.width canvas <= 1024 /\ Uploader.height canvas <= 1024.
Proof.
  destruct (submit_cases files)
    as [E|[E|[E|[E|(src & cv & t & resp & ev & B1 & B2 & _ & Hev & E)]]]];
    rewrite E; clear E; intros Hin.
  - destruct Hin.
  - destruct Hin as [Hin|[]]; discriminate Hin.
  - destruct Hin as [Hin|[]]; discriminate Hin.
  - destruct Hin as [Hin|[Hin|[]]]; discriminate Hin.
  - apply in_app_or in Hin as [Hin|Hin].
    + repeat (destruct Hin as [Hin|Hin]; [try discriminate Hin|]); [|destruct Hin].
      injection Hin as <- <- <-. now repeat split.
    + apply in_app_or in Hin as [Hin|Hin].
      * apply in_map_iff in Hin as (x & Hx & _). discriminate Hx.
      * destruct Hev as [(v & ->)|(c & text & ->)];
          repeat (destruct Hin as [Hin|Hin]; [discriminate Hin|]); destruct Hin.
Qed.

Lemma run_served st t : run st (map ServerSide t) = st.
Proof.
  revert st; induction t as [|ev t IH]; intros st; [reflexivity|].
  unfold run in *. cbn [map fold_left update]. apply IH.
Qed.

(** X16.  From the initial state of the page, every submission ends with
    loading off and with results and error never both set; an error that is
    set is not the empty text; when no image is shown the page is as it
    started; and [handleReset] then brings the page back to its initial
    state. *)
Theorem submission_leaves_a_consistent_page files :
  let st := run initial (submit b en p files) in
  isLoading st = false
  /\ (results st = None \/ Home.error st = None)
  /\ Home.error st <> Some []
  /\ (imageSrc st = None -> st = initial)
  /\ run st handleReset = initial.
Proof.
  cbv zeta.
  destruct (submit_cases files)
    as [E|[E|[E|[E|(src & cv & t & resp & ev & _ & _ & _ & Hev & E)]]]];
    rewrite E; clear E;
    try (cbn; repeat split; auto; intros; congruence).
  unfold run. rewrite !fold_left_app.
  cbn [fold_left update stored imageSrc results isLoading Home.error].
  fold (run (mkState (Some (toDataURL b src cv (js "image/jpeg") QUALITY)) None true None)
            (map ServerSide t)).
  rewrite run_served.
  destruct Hev as [(v & ->)|(c & text & ->)];
    cbn [fold_left update imageSrc results isLoading Home.error];
    repeat split; auto; intros; discriminate.
Qed.

End PipelineFurther.

Lemma uploader_fails_silently_witness :
  Uploader.handleFileChange unreadable_browser
    (Page.handleImageProcessed sample_engine
       (Page.served_by (answering (inr (Some minimal_array)))))
    [png_file]
  = [Uploader.SetIsProcessing true]
  /\ Uploader.handleFileChange contextless_browser
       (Page.handleImageProcessed sample_engine
          (Page.served_by (answering (inr (Some minimal_array)))))
       [png_file]
     = [Uploader.SetIsProcessing true; Uploader.SetIsProcessing false].
Proof.
  split.
  - exact (proj1 (proj1 (uploader_fails_silently unreadable_browser _ png_file [] eq_refl)
                   (or_introl eq_refl))).
  - exact (proj2 (uploader_fails_silently contextless_browser _ png_file [] eq_refl)
             (js "data:image/png;base64,iVBORw0KGgo=") 3000 2000 eq_refl eq_refl eq_refl).
Defined.

Lemma every_encoding_is_bounded_jpeg_witness :
  Uploader.width (Uploader.mkCanvas 1024 683) <= 1024.
Proof.
  refine (proj1 (proj2 (proj2 (every_encoding_is_bounded_jpeg
            sample_browser sample_engine (answering (inr (Some minimal_array)))
            [png_file] (Uploader.mkCanvas 1024 683) (js "image/jpeg") 0.8%Q _)))).
  vm_compute. do 2 right. left. reflexivity.
Defined.

(** ** The overlay geometry *)

Section OverlayFurther.
Import Page.

(** X17.  A well-formed box on the 0-1000 scale gives an overlay inside the
    image: top and left are not negative, height and width are not negative,
    the lower edge lies at [ymax / 10] and the right edge at [xmax / 10]
    percent, both at most 100. *)
Theorem well_formed_box_lies_within_the_image (ymin xmin ymax xmax : Z) :
  0 <= ymin -> ymin <= ymax -> ymax <= 1000 ->
  0 <= xmin -> xmin <= xmax -> xmax <= 1000 ->
  let style := getBoxStyle (ymin, xmin, ymax, xmax) in
  exists t l h w,
    percentage (top style) = Some t /\ percentage (left style) = Some l
    /\ percentage (height style) = Some h /\ percentage (width style) = Some w
    /\ (0 <= t /\ 0 <= h /\ t + h == ymax # 10 /\ t + h <= 100)%Q
    /\ (0 <= l /\ 0 <= w /\ l + w == xmax # 10 /\ l + w <= 100)%Q.
Proof.
  intros Y1 Y2 Y3 X1 X2 X3 style.
  destruct (tenths_on_scale ymin ltac:(lia)) as (t & Et & Qt).
  destruct (tenths_on_scale xmin ltac:(lia)) as (l & El & Ql).
  destruct (tenths_on_scale (ymax - ymin) ltac:(lia)) as (h & Eh & Qh).
  destruct (tenths_on_scale (xmax - xmin) ltac:(lia)) as (w & Ew & Qw).
  exists t, l, h, w. unfold style, getBoxStyle. cbn [top left height width].
  repeat split; try assumption; rewrite ?Qt, ?Qh, ?Ql, ?Qw;
    unfold Qle, Qeq, Qplus; cbn [Qnum Qden]; lia.
Qed.

Lemma well_formed_box_lies_within_the_image_witness :
  exists t h,
    percentage (top (getBoxStyle (500, 500, 600, 600))) = Some t
    /\ percentage (height (getBoxStyle (500, 500, 600, 600))) = Some h
    /\ (t + h == 600 # 10)%Q.
Proof.
  destruct (well_formed_box_lies_within_the_image 500 500 600 600
              ltac:(lia) ltac:(lia) ltac:(lia) ltac:(lia) ltac:(lia) ltac:(lia))
    as (t & l & h & w & Et & _ & Eh & _ & (_ & _ & E & _) & _).
  exists t, h. now repeat split.
Defined.

(** X18.  A box whose coordinates are inverted is not refused: the overlay
    gets a negative height, respectively width, and the text of the style
    begins with a minus sign. *)
Theorem inverted_box_gives_negative_size (ymin xmin ymax xmax : Z) :
  0 <= ymax -> ymax < ymin -> ymin <= 1000 ->
  let style := getBoxStyle (ymin, xmin, ymax, xmax) in
  exists h rest,
    percentage (height style) = Some h /\ (h < 0)%Q
    /\ height style = 45%N :: rest.
Proof.
  intros Y1 Y2 Y3 style.
  destruct (tenths_on_scale (ymax - ymin) ltac:(lia)) as (h & Eh & Qh).
  exists h. unfold style, getBoxStyle. cbn [height].
  unfold tenths at 2. destruct (Z.ltb_spec (ymax - ymin) 0); [|lia].
  eexists. split; [exact Eh|]. split.
  - rewrite Qh. unfold Qlt. cbn [Qnum Qden]. lia.
  - cbn [js list_ascii_of_string map app]. reflexivity.
Qed.

Lemma inverted_box_gives_negative_size_witness :
  exists h rest,
    percentage (height (getBoxStyle (600, 0, 500, 10))) = Some h /\ (h < 0)%Q
    /\ height (getBoxStyle (600, 0, 500, 10)) = 45%N :: rest.
Proof.
  exact (inverted_box_gives_negative_size 600 0 500 10
           ltac:(lia) ltac:(lia) ltac:(lia)).
Defined.

End OverlayFurther.

(** ** From the upload to the inference boundary *)

Section EndToEnd.
Import Uploader Page.

Variable b : Browser.
Variable en : Engine.
Variable p : Route.Platform.

(** X19.  When the browser encodes the canvas as a JPEG data URL, an upload
    that is read and decoded leads to exactly one call of the inference
    boundary, and its inline data is the base64 payload of that data URL,
    without the prefix. *)
Theorem upload_reaches_boundary_with_payload file files src W H payload :
  let canvas := mkCanvas (fst (resize W H)) (snd (resize W H)) in
  startsWith (js "image/") (Uploader.type file) = true ->
  readAsDataURL b file = Some src ->
  decode b src = Some (W, H) ->
  getContext_2d b canvas = true ->
  toDataURL b src canvas (js "image/jpeg") QUALITY
  = js "data:image/jpeg;base64," ++ payload ->
  comma_free payload = true ->
  boundary_calls (submit b en p (file :: files)) = [Route.request_for (Some payload)].
Proof.
  intros canvas Htype Hread Hdecode Hctx Hurl Hfree.
  unfold submit, handleFileChange. rewrite Htype, Hread, Hdecode. cbn [negb].
  destruct (resize W H) as [w h]. cbn [fst snd] in *. fold canvas.
  rewrite Hctx, Hurl. unfold handleImageProcessed.
  destruct (gradeImage_shape en (served_by p) (js "data:image/jpeg;base64," ++ payload))
    as (ev & -> & Hev).
  cbn [boundary_calls]. rewrite !boundary_calls_app, boundary_calls_served.
  cbn [boundary_calls app]. unfold served_by.
  rewrite POST_inference_calls. cbn [image_string get].
  change (js "data:image/jpeg;base64," ++ payload)
    with (js "data:image/jpeg;base64" ++ 44%N :: payload).
  replace (JsString.eqb (js "image") (js "image")) with true by reflexivity.
  change (js "data:image/jpeg;base64" ++ 44%N :: payload)
    with (100%N :: (tl (js "data:image/jpeg;base64") ++ 44%N :: payload)).
  cbv iota beta.
  change (100%N :: (tl (js "data:image/jpeg;base64") ++ 44%N :: payload))
    with (js "data:image/jpeg;base64" ++ 44%N :: payload).
  rewrite split_at_comma by reflexivity. rewrite (split_comma_free payload Hfree).
  cbn [nth_error].
  destruct Hev as [(r & ->)|(c & text & ->)]; reflexivity.
Qed.

End EndToEnd.

Lemma upload_reaches_boundary_with_payload_witness :
  Page.boundary_calls
    (Page.submit sample_browser sample_engine (answering (inr (Some minimal_array))) [png_file])
  = [Route.request_for (Some (js "AAAA"))].
Proof.
  exact (upload_reaches_boundary_with_payload
           sample_browser sample_engine (answering (inr (Some minimal_array)))
           png_file [] (js "data:image/png;base64,iVBORw0KGgo=") 3000 2000 (js "AAAA")
           eq_refl eq_refl eq_refl eq_refl eq_refl eq_refl).
Defined.

Lemma truthy_non_string_image_is_a_500_witness :
  Route.POST (answering (inr (Some minimal_array))) (inr (JObject [(js "image", JBool true)]))
  = caught_by_handler (Route.mkError (Some (js "image.split is not a function"))).
Proof.
  refine (proj1 (truthy_non_string_image_is_a_500
                   (answering (inr (Some minimal_array)))
                   [(js "image", JBool true)] (JBool true) eq_refl eq_refl _)).
  discriminate.
Defined.

Lemma payload_is_cut_at_second_comma_witness :
  Route.inference_calls
    (fst (Route.POST (answering (inr (Some minimal_array)))
            (inr (JObject [(js "image", JString (js "data:image/jpeg;base64,AAAA,BBBB"))]))))
  = [Route.request_for (Some (js "AAAA"))].
Proof.
  exact (payload_is_cut_at_second_comma
           (answering (inr (Some minimal_array)))
           [(js "image", JString (js "data:image/jpeg;base64,AAAA,BBBB"))]
           (js "data:image/jpeg;base64") (js "AAAA") (js "BBBB")
           eq_refl eq_refl eq_refl).
Defined.

Lemma submission_leaves_a_consistent_page_witness :
  Home.run Home.initial
    (Page.submit sample_browser sample_engine (answering (inr (Some minimal_array))) [pdf_file])
  = Home.initial.
Proof.
  exact (proj1 (proj2 (proj2 (proj2 (submission_leaves_a_consistent_page
                                       sample_browser sample_engine
                                       (answering (inr (Some minimal_array))) [pdf_file]))))
           eq_refl).
Defined.

(** A model output that is the JSON null: the handler answers 200 with
    null for the results, and the page ends with the image shown and neither
    results nor error, as [setResults(null)] leaves it. *)
Example page_state_for_null_output :
  Home.run Home.initial
    (Page.submit sample_browser sample_engine (answering (inr (Some (js "null")))) [png_file])
  = Home.mkState (Some (js "data:image/jpeg;base64,AAAA")) None false None.
Proof. vm_compute. reflexivity. Qed.
